(** * New Relic instrumentation of the AWS SDK v3 smithy client

    A shallow embedding of [lib/v3/smithy-client.js]: the plugin that
    registers two middleware on a client's middleware stack, the header
    middleware, the attribute middleware and [addAwsAttributes].

    JavaScript objects live in a heap and are passed by reference, so the
    in-place update of the request headers is visible to the next handler.
    [await e] is modelled as running [e] to completion: a rejected promise is
    a thrown value.  The collaborators the file only consumes (the agent's
    shim and segments, the client's region provider, the next handler of the
    middleware chain, the middleware stack) are parameters. *)

From Stdlib Require Import Ascii.
From stdpp Require Import gmap strings list fin_maps.

Open Scope string_scope.
Open Scope list_scope.

(** ** JavaScript values, heap and completions *)

Definition loc := nat.
Definition segment := nat.

Inductive value :=
| VUndefined
| VNull
| VBool (b : bool)
| VNum (n : Z)
| VStr (s : string)
| VObj (l : loc)              (* reference to a plain object in the heap *)
| VSegment (s : segment)      (* reference to a tracing segment of the agent *)
| VError (name : string).     (* an Error instance, e.g. a TypeError *)

#[global] Instance value_eq_dec : EqDecision value.
Proof. solve_decision. Defined.

(** Own data properties of a plain object. *)
Abbreviation obj := (gmap string value).
Abbreviation heap := (gmap loc (gmap string value)).

Definition TypeError : value := VError "TypeError".

(** ToBoolean: [undefined], [null], [false], [0] and the empty string are
    falsy, everything else is truthy. *)
Definition truthy (v : value) : bool :=
  match v with
  | VUndefined | VNull => false
  | VBool b => b
  | VNum n => negb (n =? 0)%Z
  | VStr s => negb (String.eqb s "")
  | VObj _ | VSegment _ | VError _ => true
  end.

(** [a || b] on values that are already evaluated. *)
Definition js_or (a b : value) : value := if truthy a then a else b.

Inductive outcome (A : Type) :=
| Return (a : A)
| Throw (e : value).
Arguments Return {A} a.
Arguments Throw {A} e.

(** [v[k]] for the keys this file reads: a TypeError on [undefined] and
    [null], the own property of a plain object ([undefined] when it has none;
    none of the keys read here is inherited from [Object.prototype]), and
    [undefined] on primitives and on agent objects, which carry no such
    data property. *)
Definition prop_of (h : heap) (v : value) (k : string) : outcome value :=
  match v with
  | VUndefined | VNull => Throw TypeError
  | VObj l =>
      match h !! l with
      | Some o => Return (default VUndefined (o !! k))
      | None => Return VUndefined
      end
  | _ => Return VUndefined
  end.

(** [v[k] = x] in strict mode: a TypeError on [undefined], [null] and on
    primitives; an own-property write on a plain object.  Properties written
    on an agent object are outside the model. *)
Definition assign_prop (h : heap) (v : value) (k : string) (x : value)
  : outcome unit * heap :=
  match v with
  | VObj l => (Return tt, <[l := <[k := x]> (default ∅ (h !! l))]> h)
  | VSegment _ => (Return tt, h)
  | _ => (Throw TypeError, h)
  end.

(** ** Calls into the collaborators, as observable events *)

Inductive event :=
| ERegion                                        (* config.region() was called *)
| ENext (args : value)                           (* next(args) was called *)
| EGetSegment (req : value)                      (* shim.getSegment(req) was called *)
| EAddAttribute (s : segment) (key : string) (v : value)
                                                 (* segment s recorded key=v *)
| EDebug (err : value) (msg : string).           (* shim.logger.debug(err, msg) *)

#[global] Instance event_eq_dec : EqDecision event.
Proof. solve_decision. Defined.

Record world := World { w_heap : heap; w_trace : list event }.

(** ** State and exception monad *)

Definition M (S A : Type) : Type := S -> outcome A * S.

Definition ret {S A} (a : A) : M S A := fun s => (Return a, s).

Definition throw {S A} (e : value) : M S A := fun s => (Throw e, s).

Definition bind {S A B} (c : M S A) (k : A -> M S B) : M S B :=
  fun s =>
    match c s with
    | (Return a, s') => k a s'
    | (Throw e, s') => (Throw e, s')
    end.

Notation "'let*' x ':=' c 'in' k" := (bind c (fun x => k))
  (at level 10, x pattern, c at level 100, k at level 200).

(** [try { body } catch (err) { handler }] *)
Definition try_catch {S A} (body : M S A) (handler : value -> M S A) : M S A :=
  fun s =>
    match body s with
    | (Return a, s') => (Return a, s')
    | (Throw e, s') => handler e s'
    end.

(** [let x; try { x = body } catch (err) { handler } finally { ...; return r }]
    where [x] starts as [init].  The finally block runs whichever way the try
    and catch blocks complete, and because it ends in a [return] (or throws)
    its own completion replaces theirs. *)
Definition try_catch_finally {S A B} (init : A) (body : M S A)
    (handler : value -> M S unit) (fin : A -> M S B) : M S B :=
  fun s =>
    match body s with
    | (Return a, s') => fin a s'
    | (Throw e, s') => fin init (snd (handler e s'))
    end.

Definition emit (ev : event) : M world unit :=
  fun w => (Return tt, World (w_heap w) (w_trace w ++ [ev])).

Definition get_prop (v : value) (k : string) : M world value :=
  fun w => (prop_of (w_heap w) v k, w).

Definition set_prop (v : value) (k : string) (x : value) : M world unit :=
  fun w =>
    let '(r, h) := assign_prop (w_heap w) v k x in (r, World h (w_trace w)).

(** ** The collaborators *)

(** The agent's shim: [getSegment] maps a transport handle to a segment,
    returns something else (e.g. [undefined]) or throws; [addAttribute s k v]
    is [None] when segment [s] records the pair and [Some e] when the call
    throws [e]. *)
Record Shim := {
  getSegment : value -> outcome value;
  addAttribute : segment -> string -> value -> option value
}.

(** The client configuration: the config object, whose [serviceId] is a data
    property in the heap, and what awaiting [config.region()] does (a config
    whose [region] is not callable is a provider that throws a TypeError). *)
Record Config := {
  config_ref : value;
  config_region : heap -> outcome value * heap
}.

(** The next handler of the middleware chain. *)
Definition handler := value -> heap -> outcome value * heap.

(** [shim.logger.debug(err, msg)]: the agent's logger takes the entry and
    does not throw. *)
Definition logger_debug (err : value) (msg : string) : M world unit :=
  emit (EDebug err msg).

(** [shim.getSegment(req)] *)
Definition call_getSegment (shim : Shim) (req : value) : M world value :=
  let* _ := emit (EGetSegment req) in
  fun w => (getSegment shim req, w).

(** [segment.addAttribute(key, arg)]: the member access fails on [undefined]
    and [null] before the argument is evaluated; a value without a callable
    [addAttribute] fails after it. *)
Definition call_addAttribute (shim : Shim) (seg : value) (key : string)
    (arg : M world value) : M world unit :=
  match seg with
  | VUndefined | VNull => throw TypeError
  | VSegment s =>
      let* v := arg in
      match addAttribute shim s key v with
      | None => emit (EAddAttribute s key v)
      | Some e => throw e
      end
  | _ => let* _ := arg in throw TypeError
  end.

(** [await config.region()] *)
Definition call_region (config : Config) : M world value :=
  let* _ := emit ERegion in
  fun w =>
    let '(r, h) := config_region config (w_heap w) in (r, World h (w_trace w)).

(** [await next(args)] *)
Definition call_next (next : handler) (args : value) : M world value :=
  let* _ := emit (ENext args) in
  fun w => let '(r, h) := next args (w_heap w) in (r, World h (w_trace w)).

(** ** smithy-client.js *)

Definition UNKNOWN : value := VStr "Unknown".

Definition addAwsAttributes (shim : Shim) (result : value) (config : Config)
    (region : value) (context : value) : M world unit :=
  try_catch
    (let* response := get_prop result "response" in
     let* body := get_prop response "body" in
     let* req := get_prop body "req" in
     let* seg := call_getSegment shim req in
     let* _ := call_addAttribute shim seg "aws.operation"
                 (let* v := get_prop context "commandName" in
                  ret (js_or v UNKNOWN)) in
     let* _ := call_addAttribute shim seg "aws.requestId"
                 (let* headers := get_prop response "headers" in
                  let* v := get_prop headers "x-amzn-requestid" in
                  ret (js_or v UNKNOWN)) in
     let* _ := call_addAttribute shim seg "aws.service"
                 (let* v := get_prop (config_ref config) "serviceId" in
                  ret (js_or v UNKNOWN)) in
     call_addAttribute shim seg "aws.region" (ret (js_or region UNKNOWN)))
    (fun err => logger_debug err "Failed to add AWS attributes to segment").

Definition attrMiddleware (shim : Shim) (config : Config) (next : handler)
    (context : value) : value -> M world value :=
  fun args =>
    try_catch_finally VUndefined
      (call_region config)
      (fun err => logger_debug err "Failed to get the AWS region")
      (fun region =>
         let* result := call_next next args in
         let* _ := addAwsAttributes shim result config region context in
         ret result).

Definition headerMiddleware (shim : Shim) (next : handler)
  : value -> M world value :=
  fun args =>
    let* request := get_prop args "request" in
    let* headers := get_prop request "headers" in
    let* _ := set_prop headers "x-new-relic-disable-dt" (VStr "true") in
    call_next next args.

(** A middleware as handed to [clientStack.add]: one of the two functions of
    this file with its leading arguments bound. *)
Inductive middleware :=
| BoundHeaderMiddleware (shim : Shim)                   (* headerMiddleware.bind(null, shim) *)
| BoundAttrMiddleware (shim : Shim) (config : Config).  (* attrMiddleware.bind(null, shim, config) *)

(** What the stack does when it runs a registered middleware. *)
Definition apply_middleware (mw : middleware) (next : handler)
    (context : value) : value -> M world value :=
  match mw with
  | BoundHeaderMiddleware shim => headerMiddleware shim next
  | BoundAttrMiddleware shim config => attrMiddleware shim config next context
  end.

(** The options object of [clientStack.add]. *)
Record add_options := {
  name : string;
  step : string;
  priority : option string
}.

Abbreviation entry := (middleware * add_options)%type.

(** The client's middleware stack: the entries registered so far, and the
    [add] method, which either registers the entry ([None]) or throws. *)
Record Stack := {
  entries : list entry;
  add_throws : list entry -> entry -> option value
}.

(** [clientStack.add(mw, options)] *)
Definition stack_add (mw : middleware) (options : add_options) : M Stack unit :=
  fun st =>
    match add_throws st (entries st) (mw, options) with
    | Some e => (Throw e, st)
    | None =>
        (Return tt,
         {| entries := entries st ++ [(mw, options)];
            add_throws := add_throws st |})
    end.

(** [getPlugin(shim, config).applyToStack] *)
Definition applyToStack (shim : Shim) (config : Config) : M Stack value :=
  let* _ := stack_add (BoundHeaderMiddleware shim)
              {| name := "NewRelicHeader";
                 step := "finalizeRequest";
                 priority := Some "low" |} in
  let* _ := stack_add (BoundAttrMiddleware shim config)
              {| name := "NewRelicDeserialize";
                 step := "deserialize";
                 priority := None |} in
  ret VUndefined.

(** ** What a trace says about a segment *)

(** The pairs segment [s] recorded, in order. *)
Fixpoint attributes_of (s : segment) (t : list event) : list (string * value) :=
  match t with
  | [] => []
  | EAddAttribute s' k v :: t' =>
      if decide (s' = s) then (k, v) :: attributes_of s t' else attributes_of s t'
  | _ :: t' => attributes_of s t'
  end.

(** How often the next handler was called. *)
Fixpoint next_calls (t : list event) : nat :=
  match t with
  | [] => 0
  | ENext _ :: t' => S (next_calls t')
  | _ :: t' => next_calls t'
  end.

(** ASCII lower-casing, to compare header names up to case. *)
Definition lower_ascii (c : ascii) : ascii :=
  let n := nat_of_ascii c in
  if (65 <=? n)%nat && (n <=? 90)%nat then ascii_of_nat (n + 32) else c.

Fixpoint lowercase (s : string) : string :=
  match s with
  | EmptyString => EmptyString
  | String c s' => String (lower_ascii c) (lowercase s')
  end.

(** ** Notions used in the statements *)

(** A computation that leaves the heap as it found it. *)
Definition reads_only {A} (c : M world A) : Prop :=
  forall w, w_heap (snd (c w)) = w_heap w.

(** The four pairs [addAwsAttributes] sets out to record. *)
Definition aws_attributes (operation requestId serviceId region : value)
  : list (string * value) :=
  [("aws.operation", js_or operation UNKNOWN);
   ("aws.requestId", js_or requestId UNKNOWN);
   ("aws.service", js_or serviceId UNKNOWN);
   ("aws.region", js_or region UNKNOWN)].

Definition recorded (s : segment) (kv : string * value) : event :=
  EAddAttribute s (fst kv) (snd kv).

(** Where [addAwsAttributes] ends when the lookup of the segment for [req]
    fails with [err]: the lookup and the log entry, and nothing else. *)
Definition lookup_failed (w : world) (req err : value) : outcome unit * world :=
  (Return tt,
   World (w_heap w)
     (w_trace w ++
      [EGetSegment req;
       EDebug err "Failed to add AWS attributes to segment"])).

(** Events of the tracing agent: everything but the calls into the client. *)
Definition tracer_event (ev : event) : bool :=
  match ev with
  | EGetSegment _ | EAddAttribute _ _ _ | EDebug _ _ => true
  | ERegion | ENext _ => false
  end.

(** A computation that only appends tracer events to the trace. *)
Definition tracer_only {A} (c : M world A) : Prop :=
  forall w, exists post,
    w_trace (snd (c w)) = w_trace w ++ post /\
    forallb tracer_event post = true.

(** The events of the region-resolution attempt. *)
Definition region_events (r : outcome value) : list event :=
  match r with
  | Return _ => [ERegion]
  | Throw e => [ERegion; EDebug e "Failed to get the AWS region"]
  end.

(** The value of the local [region] after the attempt. *)
Definition region_value (r : outcome value) : value :=
  match r with
  | Return v => v
  | Throw _ => VUndefined
  end.

Definition DISABLE_DT : string := "x-new-relic-disable-dt".

(** The heap after [headers['x-new-relic-disable-dt'] = 'true'] on the
    object at [lh]. *)
Definition with_disable_dt (h : gmap loc (gmap string value)) (lh : loc)
  : gmap loc (gmap string value) :=
  <[lh := <[DISABLE_DT := VStr "true"]> (default ∅ (h !! lh))]> h.

Definition NewRelicHeader (shim : Shim) : entry :=
  (BoundHeaderMiddleware shim,
   {| name := "NewRelicHeader";
      step := "finalizeRequest";
      priority := Some "low" |}).

Definition NewRelicDeserialize (shim : Shim) (config : Config) : entry :=
  (BoundAttrMiddleware shim config,
   {| name := "NewRelicDeserialize";
      step := "deserialize";
      priority := None |}).

(** ** Sample inputs *)

(** A heap with one of everything, used for the concrete runs below. *)
Module Sample.

Definition result := VObj 1.
Definition response := VObj 2.
Definition headers := VObj 3.
Definition body := VObj 4.
Definition req := VObj 5.
Definition config_object := VObj 6.
Definition context := VObj 7.
Definition args := VObj 8.
Definition request := VObj 9.
Definition request_headers := VObj 10.

Definition heap_with
    (response_headers config_props context_props : gmap string value)
  : gmap loc (gmap string value) :=
  <[1 := {[ "response" := response ]}]>
  (<[2 := <["headers" := headers]> {[ "body" := body ]}]>
  (<[3 := response_headers]>
  (<[4 := {[ "req" := req ]}]>
  (<[5 := ∅]>
  (<[6 := config_props]>
  (<[7 := context_props]>
  (<[8 := {[ "request" := request ]}]>
  (<[9 := {[ "headers" := request_headers ]}]>
  (<[10 := {[ "host" := VStr "dynamodb.us-east-1.amazonaws.com" ]}]> ∅))))))))).

Definition GetItem : gmap string value := {[ "commandName" := VStr "GetItem" ]}.

Definition start (response_headers config_props : gmap string value) : world :=
  World (heap_with response_headers config_props GetItem) [].

(** A shim that finds segment 0 for the transport handle and records
    everything. *)
Definition shim : Shim :=
  {| getSegment := fun r => if decide (r = req) then Return (VSegment 0)
                             else Return VUndefined;
     addAttribute := fun _ _ _ => None |}.

(** The same shim, except that recording [aws.service] throws. *)
Definition failing_shim : Shim :=
  {| getSegment := getSegment shim;
     addAttribute := fun _ k _ =>
       if decide (k = "aws.service") then Some (VError "Error") else None |}.

Definition config (region : outcome value) : Config :=
  {| config_ref := config_object;
     config_region := fun h => (region, h) |}.

(** A next handler that returns the sample result and leaves the heap alone. *)
Definition next : handler := fun _ h => (Return result, h).

End Sample.

(** ** The entry point: instrumentSmithyClient *)

(** The hook handed to [shim.wrapClass]. *)
Inductive post_hook :=
| PostClientConstructor.   (* wrapPostClientConstructor(getPlugin) *)

(** What the entry point does to the agent. *)
Inductive loader_event :=
| LDebug (msg : string)                          (* shim.logger.debug(msg) *)
| LWrapClass (target : value) (class : string) (post : post_hook) (es6 : bool).
                                                 (* shim.wrapClass(target, class, { post, es6 }) *)

Record loader_world := LoaderWorld {
  l_heap : gmap loc (gmap string value);
  l_trace : list loader_event
}.

(** What the entry point consumes: [getExport(shim, resolvedName, 'client')]
    of ./util, and the shim's [isFunction] and [wrapClass] ([Some e] when
    the wrapping throws [e]). *)
Record Loader := {
  getExport : string -> string -> outcome value;
  isFunction : value -> bool;
  wrapClass : value -> string -> post_hook -> bool -> option value
}.

Definition postClientConstructor : post_hook := PostClientConstructor.

Definition loader_emit (ev : loader_event) : M loader_world unit :=
  fun lw => (Return tt, LoaderWorld (l_heap lw) (l_trace lw ++ [ev])).

Definition instrumentSmithyClient (shim : Loader) (name resolvedName : string)
  : M loader_world value :=
  let* smithyClientExport :=
    (fun lw => (getExport shim resolvedName "client", lw)) in
  let* Client :=
    (fun lw => (prop_of (l_heap lw) smithyClientExport "Client", lw)) in
  if negb (isFunction shim Client) then
    let* _ := loader_emit
                (LDebug "Could not find Smithy Client, not instrumenting.") in
    ret VUndefined
  else
    match wrapClass shim smithyClientExport "Client" postClientConstructor true with
    | Some e => throw e
    | None =>
        let* _ := loader_emit
                    (LWrapClass smithyClientExport "Client"
                       postClientConstructor true) in
        ret VUndefined
    end.

(** The message of the entry point. *)
Definition NOT_INSTRUMENTING : string :=
  "Could not find Smithy Client, not instrumenting.".

(** ** More notions used in the statements *)

(** The keys of the four attributes, in the order of the calls. *)
Definition aws_keys : list string :=
  ["aws.operation"; "aws.requestId"; "aws.service"; "aws.region"].

(** The events a run appended to a trace that started as [before]. *)
Definition new_events (before after : list event) : list event :=
  drop (length before) after.

(** Every attribute recorded, on whichever segment, in order. *)
Fixpoint attribute_events (t : list event) : list (segment * string * value) :=
  match t with
  | [] => []
  | EAddAttribute s k v :: t' => (s, k, v) :: attribute_events t'
  | _ :: t' => attribute_events t'
  end.

(** The entries handed to the logger, in order. *)
Fixpoint debug_entries (t : list event) : list (value * string) :=
  match t with
  | [] => []
  | EDebug err msg :: t' => (err, msg) :: debug_entries t'
  | _ :: t' => debug_entries t'
  end.

(** The transport handles [shim.getSegment] was asked about, in order. *)
Fixpoint segment_lookups (t : list event) : list value :=
  match t with
  | [] => []
  | EGetSegment req :: t' => req :: segment_lookups t'
  | _ :: t' => segment_lookups t'
  end.

(** [undefined] or [null]. *)
Definition nullish (v : value) : bool :=
  match v with
  | VUndefined | VNull => true
  | _ => false
  end.

(** A primitive other than [undefined] and [null]. *)
Definition primitive (v : value) : bool :=
  match v with
  | VBool _ | VNum _ | VStr _ => true
  | _ => false
  end.

(** The first entry registered under a name. *)
Definition find_entry (nm : string) (l : list (middleware * add_options))
  : option (middleware * add_options) :=
  List.find (fun e => String.eqb (name (snd e)) nm) l.



(** An argument expression that touches neither heap nor trace and, when it
    returns, returns a truthy value. *)
Definition quiet_truthy (arg : M world value) : Prop :=
  forall w,
    (exists v, arg w = (Return v, w) /\ truthy v = true) \/
    (exists e, arg w = (Throw e, w)).

Definition FAILED_TO_ADD : string := "Failed to add AWS attributes to segment".

(** ** Stepping through the monad *)

Lemma bind_Return {S A B} (c : M S A) (k : A -> M S B) st a st' :
  c st = (Return a, st') -> bind c k st = k a st'.
Proof. intros H. unfold bind. by rewrite H. Qed.

Lemma bind_Throw {S A B} (c : M S A) (k : A -> M S B) st e st' :
  c st = (Throw e, st') -> bind c k st = (Throw e, st').
Proof. intros H. unfold bind. by rewrite H. Qed.

Lemma get_prop_run v k w : get_prop v k w = (prop_of (w_heap w) v k, w).
Proof. done. Qed.

Lemma call_getSegment_run shim req w :
  call_getSegment shim req w =
  (getSegment shim req, World (w_heap w) (w_trace w ++ [EGetSegment req])).
Proof. done. Qed.

Lemma call_addAttribute_accepted shim s key arg v w w' :
  arg w = (Return v, w') ->
  addAttribute shim s key v = None ->
  call_addAttribute shim (VSegment s) key arg w =
  (Return tt, World (w_heap w') (w_trace w' ++ [EAddAttribute s key v])).
Proof.
  intros Harg Hadd. unfold call_addAttribute.
  rewrite (bind_Return _ _ _ _ _ Harg), Hadd. done.
Qed.

Lemma call_addAttribute_thrown shim s key arg v e w w' :
  arg w = (Return v, w') ->
  addAttribute shim s key v = Some e ->
  call_addAttribute shim (VSegment s) key arg w = (Throw e, w').
Proof.
  intros Harg Hadd. unfold call_addAttribute.
  rewrite (bind_Return _ _ _ _ _ Harg), Hadd. done.
Qed.

Lemma read_or_unknown v k x w :
  prop_of (w_heap w) v k = Return x ->
  (let* y := get_prop v k in ret (js_or y UNKNOWN)) w =
  (Return (js_or x UNKNOWN), w).
Proof.
  intros H. rewrite (bind_Return _ _ w x w); [done|].
  by rewrite get_prop_run, H.
Qed.

(** ** Running [addAwsAttributes] when the segment is found *)

Section AttributesRecorded.

Variables (shim : Shim) (config : Config).
Variables (result response body req context headers : value).
Variables (s : segment) (w : world).
Variables (operation requestId serviceId region : value).

Hypothesis Hresponse : prop_of (w_heap w) result "response" = Return response.
Hypothesis Hbody : prop_of (w_heap w) response "body" = Return body.
Hypothesis Hreq : prop_of (w_heap w) body "req" = Return req.
Hypothesis Hsegment : getSegment shim req = Return (VSegment s).
Hypothesis Haccepts : forall k v, addAttribute shim s k v = None.
Hypothesis Hoperation :
  prop_of (w_heap w) context "commandName" = Return operation.
Hypothesis Hheaders : prop_of (w_heap w) response "headers" = Return headers.
Hypothesis HrequestId :
  prop_of (w_heap w) headers "x-amzn-requestid" = Return requestId.
Hypothesis HserviceId :
  prop_of (w_heap w) (config_ref config) "serviceId" = Return serviceId.

Lemma addAwsAttributes_found :
  addAwsAttributes shim result config region context w =
  (Return tt,
   World (w_heap w)
     (w_trace w ++
      [EGetSegment req;
       EAddAttribute s "aws.operation" (js_or operation UNKNOWN);
       EAddAttribute s "aws.requestId" (js_or requestId UNKNOWN);
       EAddAttribute s "aws.service" (js_or serviceId UNKNOWN);
       EAddAttribute s "aws.region" (js_or region UNKNOWN)])).
Proof.
  unfold addAwsAttributes, try_catch.
  rewrite (bind_Return _ _ w response w); [|by rewrite get_prop_run, Hresponse].
  rewrite (bind_Return _ _ w body w); [|by rewrite get_prop_run, Hbody].
  rewrite (bind_Return _ _ w req w); [|by rewrite get_prop_run, Hreq].
  erewrite bind_Return; [|by rewrite call_getSegment_run, Hsegment].
  erewrite bind_Return; last first.
  { eapply call_addAttribute_accepted; [|apply Haccepts].
    by apply read_or_unknown. }
  erewrite bind_Return; last first.
  { eapply call_addAttribute_accepted; [|apply Haccepts].
    erewrite bind_Return; [|by rewrite get_prop_run; simpl; rewrite Hheaders].
    by apply read_or_unknown. }
  erewrite bind_Return; last first.
  { eapply call_addAttribute_accepted; [|apply Haccepts].
    by apply read_or_unknown. }
  erewrite call_addAttribute_accepted; [|done|apply Haccepts].
  simpl. by rewrite <- !app_assoc.
Qed.

End AttributesRecorded.

Lemma attributes_of_app s t1 t2 :
  attributes_of s (t1 ++ t2) = attributes_of s t1 ++ attributes_of s t2.
Proof.
  induction t1 as [|ev t1 IH]; [done|].
  destruct ev; simpl; try done.
  case_decide; simpl; by rewrite IH.
Qed.

Lemma next_calls_app t1 t2 :
  next_calls (t1 ++ t2) = next_calls t1 + next_calls t2.
Proof.
  induction t1 as [|ev t1 IH]; [done|].
  destruct ev; simpl; by rewrite ?IH.
Qed.

(** ** addAwsAttributes: the recorded attributes *)

Lemma js_or_truthy a b : truthy a = true -> js_or a b = a.
Proof. unfold js_or. by intros ->. Qed.

Lemma js_or_falsy a b : truthy a = false -> js_or a b = b.
Proof. unfold js_or. by intros ->. Qed.

Lemma prop_of_object h l o k :
  h !! l = Some o -> prop_of h (VObj l) k = Return (default VUndefined (o !! k)).
Proof. intros H. simpl. by rewrite H. Qed.

(** C1: with response header x-amzn-requestid = abc-123, serviceId DynamoDB,
    region us-east-1 and commandName GetItem, the segment found for the
    result records aws.operation=GetItem, aws.requestId=abc-123,
    aws.service=DynamoDB and aws.region=us-east-1, in this order, and the run
    does nothing else: the heap is unchanged and the only other event is the
    segment lookup. *)
Theorem addAwsAttributes_records_four
    (shim : Shim) (config : Config) (result response body req context : value)
    (lh : loc) (hdrs : gmap string value) (s : segment) (w : world) :
  prop_of (w_heap w) result "response" = Return response ->
  prop_of (w_heap w) response "body" = Return body ->
  prop_of (w_heap w) body "req" = Return req ->
  getSegment shim req = Return (VSegment s) ->
  (forall k v, addAttribute shim s k v = None) ->
  prop_of (w_heap w) response "headers" = Return (VObj lh) ->
  w_heap w !! lh = Some hdrs ->
  hdrs !! "x-amzn-requestid" = Some (VStr "abc-123") ->
  prop_of (w_heap w) (config_ref config) "serviceId" = Return (VStr "DynamoDB") ->
  prop_of (w_heap w) context "commandName" = Return (VStr "GetItem") ->
  let run := addAwsAttributes shim result config (VStr "us-east-1") context w in
  run =
    (Return tt,
     World (w_heap w)
       (w_trace w ++
        [EGetSegment req;
         EAddAttribute s "aws.operation" (VStr "GetItem");
         EAddAttribute s "aws.requestId" (VStr "abc-123");
         EAddAttribute s "aws.service" (VStr "DynamoDB");
         EAddAttribute s "aws.region" (VStr "us-east-1")])) /\
  attributes_of s (w_trace (snd run)) =
    attributes_of s (w_trace w) ++
    [("aws.operation", VStr "GetItem"); ("aws.requestId", VStr "abc-123");
     ("aws.service", VStr "DynamoDB"); ("aws.region", VStr "us-east-1")].
Proof.
  intros Hresponse Hbody Hreq Hseg Hacc Hheaders Hlh Hid Hservice Hop run.
  assert (Hrun : run = (Return tt,
     World (w_heap w)
       (w_trace w ++
        [EGetSegment req;
         EAddAttribute s "aws.operation" (VStr "GetItem");
         EAddAttribute s "aws.requestId" (VStr "abc-123");
         EAddAttribute s "aws.service" (VStr "DynamoDB");
         EAddAttribute s "aws.region" (VStr "us-east-1")]))).
  { subst run.
    apply (addAwsAttributes_found shim config result response body req context
             (VObj lh) s w (VStr "GetItem") (VStr "abc-123") (VStr "DynamoDB")
             (VStr "us-east-1")); try done.
    erewrite prop_of_object by done. by rewrite Hid. }
  split; [done|].
  rewrite Hrun; simpl. rewrite attributes_of_app; simpl.
  by rewrite !decide_True.
Qed.

Lemma addAwsAttributes_records_four_witness :
  attributes_of 0
    (w_trace (snd (addAwsAttributes Sample.shim Sample.result
                     (Sample.config (Return (VStr "us-east-1")))
                     (VStr "us-east-1") Sample.context
                     (Sample.start {[ "x-amzn-requestid" := VStr "abc-123" ]}
                                   {[ "serviceId" := VStr "DynamoDB" ]})))) =
  [("aws.operation", VStr "GetItem"); ("aws.requestId", VStr "abc-123");
   ("aws.service", VStr "DynamoDB"); ("aws.region", VStr "us-east-1")].
Proof.
  refine (proj2 (addAwsAttributes_records_four Sample.shim
                   (Sample.config (Return (VStr "us-east-1")))
                   Sample.result Sample.response Sample.body Sample.req
                   Sample.context 3 {[ "x-amzn-requestid" := VStr "abc-123" ]} 0
                   (Sample.start {[ "x-amzn-requestid" := VStr "abc-123" ]}
                                 {[ "serviceId" := VStr "DynamoDB" ]})
                   _ _ _ _ _ _ _ _ _ _));
    try (intros; vm_compute; reflexivity).
Defined.

(** C2 as stated fails: the header is present as X-Amzn-RequestId, which is
    x-amzn-requestid up to case, and holds abc-123, yet the segment records
    aws.requestId=Unknown. *)
Lemma requestId_lookup_is_case_sensitive :
  let hdrs : gmap string value := {[ "X-Amzn-RequestId" := VStr "abc-123" ]} in
  let run := addAwsAttributes Sample.shim Sample.result
               (Sample.config (Return (VStr "us-east-1")))
               (VStr "us-east-1") Sample.context
               (Sample.start hdrs {[ "serviceId" := VStr "DynamoDB" ]}) in
  lowercase "X-Amzn-RequestId" = "x-amzn-requestid" /\
  hdrs !! "X-Amzn-RequestId" = Some (VStr "abc-123") /\
  attributes_of 0 (w_trace (snd run)) =
    [("aws.operation", VStr "GetItem"); ("aws.requestId", VStr "Unknown");
     ("aws.service", VStr "DynamoDB"); ("aws.region", VStr "us-east-1")] /\
  ("aws.requestId", VStr "abc-123") ∉ attributes_of 0 (w_trace (snd run)).
Proof.
  assert (Hrun : attributes_of 0 (w_trace (snd
            (addAwsAttributes Sample.shim Sample.result
               (Sample.config (Return (VStr "us-east-1")))
               (VStr "us-east-1") Sample.context
               (Sample.start {[ "X-Amzn-RequestId" := VStr "abc-123" ]}
                             {[ "serviceId" := VStr "DynamoDB" ]})))) =
    [("aws.operation", VStr "GetItem"); ("aws.requestId", VStr "Unknown");
     ("aws.service", VStr "DynamoDB"); ("aws.region", VStr "us-east-1")])
    by (vm_compute; reflexivity).
  cbv zeta. rewrite Hrun.
  split; [by vm_compute|]. split; [by vm_compute|]. split; [done|].
  rewrite !elem_of_cons, elem_of_nil.
  intros [?|[?|[?|[?|[]]]]]; discriminate.
Qed.

(** C2, amended: aws.requestId comes from the own property of the response
    headers stored under exactly the key x-amzn-requestid: its value when
    that is truthy, and Unknown otherwise, in particular whenever the map has
    no entry under that exact key, whatever it holds under other spellings. *)
Theorem requestId_from_exact_header_key
    (shim : Shim) (config : Config)
    (result response body req context operation serviceId region : value)
    (lh : loc) (hdrs : gmap string value) (s : segment) (w : world) :
  prop_of (w_heap w) result "response" = Return response ->
  prop_of (w_heap w) response "body" = Return body ->
  prop_of (w_heap w) body "req" = Return req ->
  getSegment shim req = Return (VSegment s) ->
  (forall k v, addAttribute shim s k v = None) ->
  prop_of (w_heap w) context "commandName" = Return operation ->
  prop_of (w_heap w) response "headers" = Return (VObj lh) ->
  w_heap w !! lh = Some hdrs ->
  prop_of (w_heap w) (config_ref config) "serviceId" = Return serviceId ->
  addAwsAttributes shim result config region context w =
    (Return tt,
     World (w_heap w)
       (w_trace w ++
        [EGetSegment req;
         EAddAttribute s "aws.operation" (js_or operation UNKNOWN);
         EAddAttribute s "aws.requestId"
           (match hdrs !! "x-amzn-requestid" with
            | Some v => if truthy v then v else VStr "Unknown"
            | None => VStr "Unknown"
            end);
         EAddAttribute s "aws.service" (js_or serviceId UNKNOWN);
         EAddAttribute s "aws.region" (js_or region UNKNOWN)])).
Proof.
  intros Hresponse Hbody Hreq Hseg Hacc Hop Hheaders Hlh Hservice.
  rewrite (addAwsAttributes_found shim config result response body req context
             (VObj lh) s w operation
             (default VUndefined (hdrs !! "x-amzn-requestid")) serviceId region);
    try done.
  - by destruct (hdrs !! "x-amzn-requestid").
  - by apply prop_of_object.
Qed.

Lemma requestId_from_exact_header_key_witness :
  addAwsAttributes Sample.shim Sample.result
    (Sample.config (Return (VStr "us-east-1"))) (VStr "us-east-1")
    Sample.context
    (Sample.start (<[ "x-amzn-requestid" := VStr "lower-1" ]>
                     {[ "X-Amzn-RequestId" := VStr "upper-2" ]})
                  {[ "serviceId" := VStr "DynamoDB" ]}) =
  (Return tt,
   World (Sample.heap_with (<[ "x-amzn-requestid" := VStr "lower-1" ]>
                              {[ "X-Amzn-RequestId" := VStr "upper-2" ]})
                           {[ "serviceId" := VStr "DynamoDB" ]} Sample.GetItem)
     [EGetSegment Sample.req;
      EAddAttribute 0 "aws.operation" (VStr "GetItem");
      EAddAttribute 0 "aws.requestId" (VStr "lower-1");
      EAddAttribute 0 "aws.service" (VStr "DynamoDB");
      EAddAttribute 0 "aws.region" (VStr "us-east-1")]).
Proof.
  refine (requestId_from_exact_header_key Sample.shim
            (Sample.config (Return (VStr "us-east-1")))
            Sample.result Sample.response Sample.body Sample.req Sample.context
            (VStr "GetItem") (VStr "DynamoDB") (VStr "us-east-1") 3
            (<[ "x-amzn-requestid" := VStr "lower-1" ]>
               {[ "X-Amzn-RequestId" := VStr "upper-2" ]}) 0
            (Sample.start (<[ "x-amzn-requestid" := VStr "lower-1" ]>
                             {[ "X-Amzn-RequestId" := VStr "upper-2" ]})
                          {[ "serviceId" := VStr "DynamoDB" ]})
            _ _ _ _ _ _ _ _ _);
    try (intros; vm_compute; reflexivity).
Defined.

(** C8: when the response headers have no x-amzn-requestid entry, the
    resolved region is undefined and the config has no serviceId, the segment
    records aws.requestId, aws.service and aws.region as Unknown (after
    aws.operation, which follows the command name). *)
Theorem addAwsAttributes_unknown_when_absent
    (shim : Shim) (config : Config)
    (result response body req context operation : value)
    (lh lc : loc) (hdrs cfg : gmap string value) (s : segment) (w : world) :
  prop_of (w_heap w) result "response" = Return response ->
  prop_of (w_heap w) response "body" = Return body ->
  prop_of (w_heap w) body "req" = Return req ->
  getSegment shim req = Return (VSegment s) ->
  (forall k v, addAttribute shim s k v = None) ->
  prop_of (w_heap w) context "commandName" = Return operation ->
  prop_of (w_heap w) response "headers" = Return (VObj lh) ->
  w_heap w !! lh = Some hdrs ->
  hdrs !! "x-amzn-requestid" = None ->
  config_ref config = VObj lc ->
  w_heap w !! lc = Some cfg ->
  cfg !! "serviceId" = None ->
  addAwsAttributes shim result config VUndefined context w =
    (Return tt,
     World (w_heap w)
       (w_trace w ++
        [EGetSegment req;
         EAddAttribute s "aws.operation" (js_or operation UNKNOWN);
         EAddAttribute s "aws.requestId" (VStr "Unknown");
         EAddAttribute s "aws.service" (VStr "Unknown");
         EAddAttribute s "aws.region" (VStr "Unknown")])).
Proof.
  intros Hresponse Hbody Hreq Hseg Hacc Hop Hheaders Hlh Hid Hcfg Hlc Hservice.
  apply (addAwsAttributes_found shim config result response body req context
           (VObj lh) s w operation VUndefined VUndefined VUndefined); try done.
  - erewrite prop_of_object by done. by rewrite Hid.
  - rewrite Hcfg. erewrite prop_of_object by done. by rewrite Hservice.
Qed.

Lemma addAwsAttributes_unknown_when_absent_witness :
  addAwsAttributes Sample.shim Sample.result (Sample.config (Throw TypeError))
    VUndefined Sample.context (Sample.start ∅ ∅) =
  (Return tt,
   World (Sample.heap_with ∅ ∅ Sample.GetItem)
     [EGetSegment Sample.req;
      EAddAttribute 0 "aws.operation" (VStr "GetItem");
      EAddAttribute 0 "aws.requestId" (VStr "Unknown");
      EAddAttribute 0 "aws.service" (VStr "Unknown");
      EAddAttribute 0 "aws.region" (VStr "Unknown")]).
Proof.
  refine (addAwsAttributes_unknown_when_absent Sample.shim
            (Sample.config (Throw TypeError))
            Sample.result Sample.response Sample.body Sample.req Sample.context
            (VStr "GetItem") 3 6 ∅ ∅ 0 (Sample.start ∅ ∅)
            _ _ _ _ _ _ _ _ _ _ _ _);
    try (intros; vm_compute; reflexivity).
Defined.

(** C9: the fallback is on truthiness, not on absence.  Each of the four
    recorded values is the underlying value when that is truthy and Unknown
    when it is falsy, so a value that is present but falsy, such as the empty
    string, is recorded as Unknown. *)
Theorem addAwsAttributes_unknown_when_falsy
    (shim : Shim) (config : Config)
    (result response body req context headers : value)
    (operation requestId serviceId region : value) (s : segment) (w : world) :
  prop_of (w_heap w) result "response" = Return response ->
  prop_of (w_heap w) response "body" = Return body ->
  prop_of (w_heap w) body "req" = Return req ->
  getSegment shim req = Return (VSegment s) ->
  (forall k v, addAttribute shim s k v = None) ->
  prop_of (w_heap w) context "commandName" = Return operation ->
  prop_of (w_heap w) response "headers" = Return headers ->
  prop_of (w_heap w) headers "x-amzn-requestid" = Return requestId ->
  prop_of (w_heap w) (config_ref config) "serviceId" = Return serviceId ->
  exists a1 a2 a3 a4,
    addAwsAttributes shim result config region context w =
      (Return tt,
       World (w_heap w)
         (w_trace w ++
          [EGetSegment req;
           EAddAttribute s "aws.operation" a1;
           EAddAttribute s "aws.requestId" a2;
           EAddAttribute s "aws.service" a3;
           EAddAttribute s "aws.region" a4])) /\
    (truthy operation = false -> a1 = VStr "Unknown") /\
    (truthy requestId = false -> a2 = VStr "Unknown") /\
    (truthy serviceId = false -> a3 = VStr "Unknown") /\
    (truthy region = false -> a4 = VStr "Unknown") /\
    (truthy operation = true -> a1 = operation) /\
    (truthy requestId = true -> a2 = requestId) /\
    (truthy serviceId = true -> a3 = serviceId) /\
    (truthy region = true -> a4 = region) /\
    truthy (VStr "") = false.
Proof.
  intros Hresponse Hbody Hreq Hseg Hacc Hop Hheaders Hid Hservice.
  exists (js_or operation UNKNOWN), (js_or requestId UNKNOWN),
    (js_or serviceId UNKNOWN), (js_or region UNKNOWN).
  split; [by eapply addAwsAttributes_found|].
  repeat split;
    first [ apply js_or_falsy | apply js_or_truthy | reflexivity ].
Qed.

Lemma addAwsAttributes_unknown_when_falsy_witness :
  let empty_id : gmap string value := {[ "x-amzn-requestid" := VStr "" ]} in
  let w := World (Sample.heap_with empty_id {[ "serviceId" := VStr "" ]}
                    {[ "commandName" := VStr "" ]}) [] in
  addAwsAttributes Sample.shim Sample.result (Sample.config (Return (VStr "")))
    (VStr "") Sample.context w =
  (Return tt,
   World (w_heap w)
     [EGetSegment Sample.req;
      EAddAttribute 0 "aws.operation" (VStr "Unknown");
      EAddAttribute 0 "aws.requestId" (VStr "Unknown");
      EAddAttribute 0 "aws.service" (VStr "Unknown");
      EAddAttribute 0 "aws.region" (VStr "Unknown")]).
Proof.
  intros empty_id w.
  destruct (addAwsAttributes_unknown_when_falsy Sample.shim
              (Sample.config (Return (VStr "")))
              Sample.result Sample.response Sample.body Sample.req
              Sample.context Sample.headers
              (VStr "") (VStr "") (VStr "") (VStr "") 0 w)
    as (a1 & a2 & a3 & a4 & Hrun & H1 & H2 & H3 & H4 & _);
    [ intros; vm_compute; reflexivity .. | ].
  rewrite Hrun, H1, H2, H3, H4 by reflexivity. reflexivity.
Defined.

(** ** addAwsAttributes: failures stay inside *)

Lemma reads_only_ret {A} (a : A) : reads_only (ret a).
Proof. done. Qed.

Lemma reads_only_throw {A} e : reads_only (@throw world A e).
Proof. done. Qed.

Lemma reads_only_emit ev : reads_only (emit ev).
Proof. done. Qed.

Lemma reads_only_get_prop v k : reads_only (get_prop v k).
Proof. done. Qed.

Lemma reads_only_bind {A B} (c : M world A) (k : A -> M world B) :
  reads_only c -> (forall a, reads_only (k a)) -> reads_only (bind c k).
Proof.
  intros Hc Hk w. unfold bind. specialize (Hc w).
  destruct (c w) as [[a|e] w']; simpl in *; [|done].
  by rewrite Hk.
Qed.

Lemma reads_only_try_catch {A} (c : M world A) (h : value -> M world A) :
  reads_only c -> (forall e, reads_only (h e)) -> reads_only (try_catch c h).
Proof.
  intros Hc Hh w. unfold try_catch. specialize (Hc w).
  destruct (c w) as [[a|e] w']; simpl in *; [done|].
  by rewrite Hh.
Qed.

Lemma reads_only_call_getSegment shim req : reads_only (call_getSegment shim req).
Proof. done. Qed.

Lemma reads_only_call_addAttribute shim seg key arg :
  reads_only arg -> reads_only (call_addAttribute shim seg key arg).
Proof.
  intros Harg. unfold call_addAttribute.
  destruct seg;
    try apply reads_only_throw;
    apply reads_only_bind; try done; intros v;
    try apply reads_only_throw.
  destruct (addAttribute shim s key v);
    [apply reads_only_throw | apply reads_only_emit].
Qed.

Create HintDb reads_only.

#[local] Hint Resolve reads_only_ret reads_only_throw reads_only_emit
  reads_only_get_prop reads_only_call_getSegment : reads_only.

Lemma reads_only_addAwsAttributes shim result config region context :
  reads_only (addAwsAttributes shim result config region context).
Proof.
  unfold addAwsAttributes, logger_debug.
  apply reads_only_try_catch; [|auto with reads_only].
  repeat first
    [ solve [auto with reads_only]
    | apply reads_only_call_addAttribute
    | apply reads_only_bind; [|intros ?] ].
Qed.

Lemma addAwsAttributes_returns shim result config region context w :
  fst (addAwsAttributes shim result config region context w) = Return tt.
Proof.
  unfold addAwsAttributes, try_catch.
  match goal with |- context [match ?c w with _ => _ end] =>
    destruct (c w) as [[[]|e] w'] end; done.
Qed.

Section SegmentLookup.

Variables (shim : Shim) (config : Config).
Variables (result response body req region context : value) (w : world).

Hypothesis Hresponse : prop_of (w_heap w) result "response" = Return response.
Hypothesis Hbody : prop_of (w_heap w) response "body" = Return body.
Hypothesis Hreq : prop_of (w_heap w) body "req" = Return req.

Lemma addAwsAttributes_lookup_throws e :
  getSegment shim req = Throw e ->
  addAwsAttributes shim result config region context w = lookup_failed w req e.
Proof.
  intros Hseg. unfold addAwsAttributes, try_catch.
  rewrite (bind_Return _ _ w response w); [|by rewrite get_prop_run, Hresponse].
  rewrite (bind_Return _ _ w body w); [|by rewrite get_prop_run, Hbody].
  rewrite (bind_Return _ _ w req w); [|by rewrite get_prop_run, Hreq].
  erewrite bind_Throw; [|by rewrite call_getSegment_run, Hseg].
  unfold lookup_failed, logger_debug, emit; simpl. by rewrite <- app_assoc.
Qed.

Lemma addAwsAttributes_lookup_nothing v :
  getSegment shim req = Return v ->
  v = VUndefined \/ v = VNull ->
  addAwsAttributes shim result config region context w =
  lookup_failed w req TypeError.
Proof.
  intros Hseg Hv. unfold addAwsAttributes, try_catch.
  rewrite (bind_Return _ _ w response w); [|by rewrite get_prop_run, Hresponse].
  rewrite (bind_Return _ _ w body w); [|by rewrite get_prop_run, Hbody].
  rewrite (bind_Return _ _ w req w); [|by rewrite get_prop_run, Hreq].
  erewrite bind_Return; [|by rewrite call_getSegment_run, Hseg].
  erewrite bind_Throw; last first.
  { destruct Hv as [-> | ->]; reflexivity. }
  unfold lookup_failed, logger_debug, emit; simpl. by rewrite <- app_assoc.
Qed.

End SegmentLookup.

Section RecordingThrows.

Variables (shim : Shim) (config : Config).
Variables (result response body req context headers : value).
Variables (s : segment) (w : world).
Variables (operation requestId serviceId region : value).

Hypothesis Hresponse : prop_of (w_heap w) result "response" = Return response.
Hypothesis Hbody : prop_of (w_heap w) response "body" = Return body.
Hypothesis Hreq : prop_of (w_heap w) body "req" = Return req.
Hypothesis Hsegment : getSegment shim req = Return (VSegment s).
Hypothesis Hoperation :
  prop_of (w_heap w) context "commandName" = Return operation.
Hypothesis Hheaders : prop_of (w_heap w) response "headers" = Return headers.
Hypothesis HrequestId :
  prop_of (w_heap w) headers "x-amzn-requestid" = Return requestId.
Hypothesis HserviceId :
  prop_of (w_heap w) (config_ref config) "serviceId" = Return serviceId.

Lemma addAwsAttributes_recording_throws n kv e :
  let attrs := aws_attributes operation requestId serviceId region in
  (forall i kv', i < n -> attrs !! i = Some kv' ->
                 addAttribute shim s (fst kv') (snd kv') = None) ->
  attrs !! n = Some kv ->
  addAttribute shim s (fst kv) (snd kv) = Some e ->
  addAwsAttributes shim result config region context w =
  (Return tt,
   World (w_heap w)
     (w_trace w ++
      EGetSegment req :: (recorded s <$> take n attrs) ++
      [EDebug e "Failed to add AWS attributes to segment"])).
Proof.
  intros attrs Hbefore Hn Hthrows.
  assert (H0 : 0 < n -> addAttribute shim s "aws.operation"
                          (js_or operation UNKNOWN) = None).
  { intros ?. by apply (Hbefore 0 (_, _)). }
  assert (H1 : 1 < n -> addAttribute shim s "aws.requestId"
                          (js_or requestId UNKNOWN) = None).
  { intros ?. by apply (Hbefore 1 (_, _)). }
  assert (H2 : 2 < n -> addAttribute shim s "aws.service"
                          (js_or serviceId UNKNOWN) = None).
  { intros ?. by apply (Hbefore 2 (_, _)). }
  assert (Hop : forall t,
            (let* v := get_prop context "commandName" in
             ret (js_or v UNKNOWN)) (World (w_heap w) t)
            = (Return (js_or operation UNKNOWN), World (w_heap w) t)).
  { intros t. by apply read_or_unknown. }
  assert (Hid : forall t,
            (let* hs := get_prop response "headers" in
             let* v := get_prop hs "x-amzn-requestid" in
             ret (js_or v UNKNOWN)) (World (w_heap w) t)
            = (Return (js_or requestId UNKNOWN), World (w_heap w) t)).
  { intros t. erewrite bind_Return; [|by rewrite get_prop_run; simpl; rewrite Hheaders].
    by apply read_or_unknown. }
  assert (Hsv : forall t,
            (let* v := get_prop (config_ref config) "serviceId" in
             ret (js_or v UNKNOWN)) (World (w_heap w) t)
            = (Return (js_or serviceId UNKNOWN), World (w_heap w) t)).
  { intros t. by apply read_or_unknown. }
  unfold addAwsAttributes, try_catch.
  rewrite (bind_Return _ _ w response w); [|by rewrite get_prop_run, Hresponse].
  rewrite (bind_Return _ _ w body w); [|by rewrite get_prop_run, Hbody].
  rewrite (bind_Return _ _ w req w); [|by rewrite get_prop_run, Hreq].
  erewrite bind_Return; [|by rewrite call_getSegment_run, Hsegment].
  destruct n as [|[|[|[|n]]]]; simpl in Hn; try discriminate;
    injection Hn as <-; simpl in Hthrows.
  - erewrite bind_Throw;
      [|eapply call_addAttribute_thrown; [apply Hop | done]].
    unfold logger_debug, emit; simpl. by rewrite <- app_assoc.
  - erewrite bind_Return;
      [|eapply call_addAttribute_accepted; [apply Hop | apply H0; lia]].
    erewrite bind_Throw;
      [|eapply call_addAttribute_thrown; [apply Hid | done]].
    unfold logger_debug, emit; simpl. by rewrite <- !app_assoc.
  - erewrite bind_Return;
      [|eapply call_addAttribute_accepted; [apply Hop | apply H0; lia]].
    erewrite bind_Return;
      [|eapply call_addAttribute_accepted; [apply Hid | apply H1; lia]].
    erewrite bind_Throw;
      [|eapply call_addAttribute_thrown; [apply Hsv | done]].
    unfold logger_debug, emit; simpl. by rewrite <- !app_assoc.
  - erewrite bind_Return;
      [|eapply call_addAttribute_accepted; [apply Hop | apply H0; lia]].
    erewrite bind_Return;
      [|eapply call_addAttribute_accepted; [apply Hid | apply H1; lia]].
    erewrite bind_Return;
      [|eapply call_addAttribute_accepted; [apply Hsv | apply H2; lia]].
    erewrite call_addAttribute_thrown; [|done|done].
    unfold logger_debug, emit; simpl. by rewrite <- !app_assoc.
Qed.

End RecordingThrows.

Lemma attributes_of_recorded s l : attributes_of s (recorded s <$> l) = l.
Proof.
  induction l as [|[k v] l IH]; [done|].
  rewrite fmap_cons. unfold recorded at 1. cbn [attributes_of fst snd].
  rewrite decide_True by done. by rewrite IH.
Qed.

(** C3 as stated fails: when the third recording call (aws.service) throws,
    no exception escapes, but the segment has already received aws.operation
    and aws.requestId: the recording is not all-or-nothing. *)
Lemma addAwsAttributes_not_atomic :
  let run := addAwsAttributes Sample.failing_shim Sample.result
               (Sample.config (Return (VStr "us-east-1")))
               (VStr "us-east-1") Sample.context
               (Sample.start {[ "x-amzn-requestid" := VStr "abc-123" ]}
                             {[ "serviceId" := VStr "DynamoDB" ]}) in
  addAttribute Sample.failing_shim 0 "aws.service" (VStr "DynamoDB")
    = Some (VError "Error") /\
  fst run = Return tt /\
  attributes_of 0 (w_trace (snd run)) =
    [("aws.operation", VStr "GetItem"); ("aws.requestId", VStr "abc-123")] /\
  attributes_of 0 (w_trace (snd run)) <> [].
Proof.
  assert (Hrun : attributes_of 0 (w_trace (snd
            (addAwsAttributes Sample.failing_shim Sample.result
               (Sample.config (Return (VStr "us-east-1")))
               (VStr "us-east-1") Sample.context
               (Sample.start {[ "x-amzn-requestid" := VStr "abc-123" ]}
                             {[ "serviceId" := VStr "DynamoDB" ]})))) =
    [("aws.operation", VStr "GetItem"); ("aws.requestId", VStr "abc-123")])
    by (vm_compute; reflexivity).
  cbv zeta. rewrite Hrun.
  split; [by vm_compute|]. split; [by vm_compute|]. done.
Qed.

(** C3, amended: no exception escapes [addAwsAttributes] and it changes no
    object, whatever its input.  If the segment lookup throws or returns
    nothing, no attribute is recorded on any segment.  If a recording call
    throws, that attribute and the ones after it are skipped, and the ones
    recorded before it stay on the segment. *)
Theorem addAwsAttributes_contains_failures
    (shim : Shim) (config : Config) (result region context : value) (w : world) :
  let run := addAwsAttributes shim result config region context w in
  (fst run = Return tt /\ w_heap (snd run) = w_heap w) /\
  (forall response body req,
      prop_of (w_heap w) result "response" = Return response ->
      prop_of (w_heap w) response "body" = Return body ->
      prop_of (w_heap w) body "req" = Return req ->
      (exists e, getSegment shim req = Throw e) \/
      getSegment shim req = Return VUndefined \/
      getSegment shim req = Return VNull ->
      forall s, attributes_of s (w_trace (snd run)) = attributes_of s (w_trace w)) /\
  (forall response body req s headers operation requestId serviceId n kv e,
      prop_of (w_heap w) result "response" = Return response ->
      prop_of (w_heap w) response "body" = Return body ->
      prop_of (w_heap w) body "req" = Return req ->
      getSegment shim req = Return (VSegment s) ->
      prop_of (w_heap w) context "commandName" = Return operation ->
      prop_of (w_heap w) response "headers" = Return headers ->
      prop_of (w_heap w) headers "x-amzn-requestid" = Return requestId ->
      prop_of (w_heap w) (config_ref config) "serviceId" = Return serviceId ->
      let attrs := aws_attributes operation requestId serviceId region in
      (forall i kv', i < n -> attrs !! i = Some kv' ->
                     addAttribute shim s (fst kv') (snd kv') = None) ->
      attrs !! n = Some kv ->
      addAttribute shim s (fst kv) (snd kv) = Some e ->
      attributes_of s (w_trace (snd run)) =
        attributes_of s (w_trace w) ++ take n attrs).
Proof.
  intros run. split; [|split].
  - split; [apply addAwsAttributes_returns | apply reads_only_addAwsAttributes].
  - intros response body req Hresponse Hbody Hreq Hlookup s. subst run.
    destruct Hlookup as [[e He] | [Hv | Hv]].
    + erewrite addAwsAttributes_lookup_throws by done.
      simpl. by rewrite attributes_of_app, app_nil_r.
    + erewrite addAwsAttributes_lookup_nothing by eauto.
      simpl. by rewrite attributes_of_app, app_nil_r.
    + erewrite addAwsAttributes_lookup_nothing by eauto.
      simpl. by rewrite attributes_of_app, app_nil_r.
  - intros response body req s headers operation requestId serviceId n kv e
      Hresponse Hbody Hreq Hseg Hop Hheaders Hid Hservice attrs Hbefore Hn He.
    subst run.
    erewrite addAwsAttributes_recording_throws by done.
    simpl. rewrite attributes_of_app. f_equal.
    change (EGetSegment req :: ?l) with ([EGetSegment req] ++ l).
    rewrite !attributes_of_app, attributes_of_recorded. simpl.
    by rewrite app_nil_r.
Qed.

Lemma addAwsAttributes_contains_failures_witness :
  attributes_of 0
    (w_trace (snd (addAwsAttributes Sample.failing_shim Sample.result
                     (Sample.config (Return (VStr "us-east-1")))
                     (VStr "us-east-1") Sample.context
                     (Sample.start {[ "x-amzn-requestid" := VStr "abc-123" ]}
                                   {[ "serviceId" := VStr "DynamoDB" ]})))) =
  [] ++ take 2 (aws_attributes (VStr "GetItem") (VStr "abc-123")
                  (VStr "DynamoDB") (VStr "us-east-1")).
Proof.
  refine (proj2 (proj2 (addAwsAttributes_contains_failures Sample.failing_shim
            (Sample.config (Return (VStr "us-east-1")))
            Sample.result (VStr "us-east-1") Sample.context
            (Sample.start {[ "x-amzn-requestid" := VStr "abc-123" ]}
                          {[ "serviceId" := VStr "DynamoDB" ]})))
            Sample.response Sample.body Sample.req 0 Sample.headers
            (VStr "GetItem") (VStr "abc-123") (VStr "DynamoDB") 2
            ("aws.service", VStr "DynamoDB") (VError "Error")
            _ _ _ _ _ _ _ _ _ _ _);
    try (vm_compute; reflexivity).
  intros [|[|i]] kv' Hi Hkv; [| |lia]; injection Hkv as <-; reflexivity.
Defined.

(** ** attrMiddleware *)

Lemma tracer_only_silent {A} (c : M world A) :
  (forall w, w_trace (snd (c w)) = w_trace w) -> tracer_only c.
Proof. intros H w. exists []. by rewrite H, app_nil_r. Qed.

Lemma tracer_only_emit ev : tracer_event ev = true -> tracer_only (emit ev).
Proof. intros H w. exists [ev]. simpl. by rewrite H. Qed.

Lemma tracer_only_bind {A B} (c : M world A) (k : A -> M world B) :
  tracer_only c -> (forall a, tracer_only (k a)) -> tracer_only (bind c k).
Proof.
  intros Hc Hk w. unfold bind. destruct (Hc w) as (p1 & H1 & Hp1).
  destruct (c w) as [[a|e] w']; simpl in *; [|by exists p1].
  destruct (Hk a w') as (p2 & H2 & Hp2).
  exists (p1 ++ p2). rewrite H2, H1, app_assoc. split; [done|].
  rewrite forallb_app. by rewrite Hp1, Hp2.
Qed.

Lemma tracer_only_try_catch {A} (c : M world A) (h : value -> M world A) :
  tracer_only c -> (forall e, tracer_only (h e)) -> tracer_only (try_catch c h).
Proof.
  intros Hc Hh w. unfold try_catch. destruct (Hc w) as (p1 & H1 & Hp1).
  destruct (c w) as [[a|e] w']; simpl in *; [by exists p1|].
  destruct (Hh e w') as (p2 & H2 & Hp2).
  exists (p1 ++ p2). rewrite H2, H1, app_assoc. split; [done|].
  rewrite forallb_app. by rewrite Hp1, Hp2.
Qed.

Lemma tracer_only_call_getSegment shim req :
  tracer_only (call_getSegment shim req).
Proof. intros w. by exists [EGetSegment req]. Qed.

Lemma tracer_only_call_addAttribute shim seg key arg :
  tracer_only arg -> tracer_only (call_addAttribute shim seg key arg).
Proof.
  intros Harg. unfold call_addAttribute.
  destruct seg;
    try (by apply tracer_only_silent);
    apply tracer_only_bind; try done; intros v;
    try (by apply tracer_only_silent).
  destruct (addAttribute shim s key v);
    [by apply tracer_only_silent | by apply tracer_only_emit].
Qed.

Lemma tracer_only_addAwsAttributes shim result config region context :
  tracer_only (addAwsAttributes shim result config region context).
Proof.
  unfold addAwsAttributes, logger_debug.
  apply tracer_only_try_catch; [|intros e; by apply tracer_only_emit].
  repeat first
    [ apply tracer_only_call_getSegment
    | apply tracer_only_call_addAttribute
    | apply tracer_only_bind; [|intros ?]
    | by apply tracer_only_silent ].
Qed.

Lemma next_calls_tracer post :
  forallb tracer_event post = true -> next_calls post = 0.
Proof.
  induction post as [|ev post IH]; [done|].
  simpl. intros [Hev Hpost]%andb_true_iff.
  destruct ev; try done; by apply IH.
Qed.

(** One run of the middleware, spelled out: the region attempt, then the
    next handler, then the recording when the next handler returned. *)
Lemma attrMiddleware_run shim config next context args w :
  let attempt := config_region config (w_heap w) in
  let called := next args (snd attempt) in
  let w' := World (snd called)
              (w_trace w ++ region_events (fst attempt) ++ [ENext args]) in
  attrMiddleware shim config next context args w =
  match fst called with
  | Return result =>
      (Return result,
       snd (addAwsAttributes shim result config
              (region_value (fst attempt)) context w'))
  | Throw x => (Throw x, w')
  end.
Proof.
  intros attempt called w'. subst w' called attempt.
  unfold attrMiddleware, try_catch_finally, call_region, call_next, bind, emit,
    logger_debug, ret.
  simpl. destruct (config_region config (w_heap w)) as [[v|e] h1]; simpl.
  - destruct (next args h1) as [[result|x] h2]; simpl;
      rewrite <- ?app_assoc; simpl; [|done].
    pose proof (addAwsAttributes_returns shim result config v context
                  (World h2 (w_trace w ++ [ERegion; ENext args]))) as Hret.
    destruct (addAwsAttributes _ _ _ _ _ _) as [[[]|?] ?]; simpl in *; done.
  - destruct (next args h1) as [[result|x] h2]; simpl;
      rewrite <- ?app_assoc; simpl; [|done].
    pose proof (addAwsAttributes_returns shim result config VUndefined context
                  (World h2 (w_trace w ++
                     [ERegion; EDebug e "Failed to get the AWS region";
                      ENext args]))) as Hret.
    destruct (addAwsAttributes _ _ _ _ _ _) as [[[]|?] ?]; simpl in *; done.
Qed.

(** C4: whether the region resolution returns or throws, the next handler is
    called exactly once, on the heap the region attempt left, after the
    events of that attempt; nothing is recorded on any segment before the
    next handler has run, the recording events all come after its call and
    only when it returned; the middleware's outcome is the next handler's
    outcome, and the heap is the one the next handler left. *)
Theorem attrMiddleware_calls_next_once
    (shim : Shim) (config : Config) (next : handler) (context args : value)
    (w : world) :
  let attempt := config_region config (w_heap w) in
  let called := next args (snd attempt) in
  let run := attrMiddleware shim config next context args w in
  fst run = fst called /\
  w_heap (snd run) = snd called /\
  next_calls (w_trace (snd run)) = S (next_calls (w_trace w)) /\
  (forall s, attributes_of s (region_events (fst attempt) ++ [ENext args]) = []) /\
  exists post,
    w_trace (snd run) =
      w_trace w ++ region_events (fst attempt) ++ [ENext args] ++ post /\
    forallb tracer_event post = true /\
    (forall x, fst called = Throw x -> post = []).
Proof.
  intros attempt called run.
  assert (Hcalls : forall r, next_calls (region_events r) = 0)
    by (by intros [?|?]).
  assert (Hattrs : forall r s, attributes_of s (region_events r) = [])
    by (by intros [?|?] ?).
  pose proof (attrMiddleware_run shim config next context args w) as Hrun.
  cbv zeta in Hrun. fold attempt in Hrun. fold called in Hrun. fold run in Hrun.
  destruct (fst called) as [result|x] eqn:Hcalled.
  - set (w' := World (snd called)
                 (w_trace w ++ region_events (fst attempt) ++ [ENext args]))
      in Hrun.
    destruct (tracer_only_addAwsAttributes shim result config
                (region_value (fst attempt)) context w') as (post & Hpost & Hev).
    pose proof (reads_only_addAwsAttributes shim result config
                  (region_value (fst attempt)) context w') as Hheap.
    rewrite Hrun; simpl. rewrite Hheap, Hpost; simpl.
    split; [done|]. split; [done|]. split; [|split].
    + rewrite !next_calls_app, Hcalls, (next_calls_tracer post Hev); simpl. lia.
    + intros s. by rewrite attributes_of_app, Hattrs.
    + exists post. rewrite <- !app_assoc. done.
  - rewrite Hrun; simpl.
    split; [done|]. split; [done|]. split; [|split].
    + rewrite !next_calls_app, Hcalls; simpl. lia.
    + intros s. by rewrite attributes_of_app, Hattrs.
    + by exists [].
Qed.

(** C5: when the region resolution throws, the exception is logged and goes
    no further: the next handler is still called, the middleware's outcome is
    the next handler's outcome, and when that is a result the recording runs
    on it with an undefined region, so that a segment that is found and
    accepts the writes records aws.region=Unknown. *)
Theorem attrMiddleware_region_failure
    (shim : Shim) (config : Config) (next : handler) (context args : value)
    (w : world) (e : value) (h1 : gmap loc (gmap string value)) :
  config_region config (w_heap w) = (Throw e, h1) ->
  let run := attrMiddleware shim config next context args w in
  let called :=
    World (snd (next args h1))
      (w_trace w ++
       [ERegion; EDebug e "Failed to get the AWS region"; ENext args]) in
  fst run = fst (next args h1) /\
  (forall x, fst (next args h1) = Throw x -> snd run = called) /\
  (forall result,
      fst (next args h1) = Return result ->
      snd run = snd (addAwsAttributes shim result config VUndefined context called) /\
      forall response body req s headers operation requestId serviceId,
        prop_of (w_heap called) result "response" = Return response ->
        prop_of (w_heap called) response "body" = Return body ->
        prop_of (w_heap called) body "req" = Return req ->
        getSegment shim req = Return (VSegment s) ->
        (forall k v, addAttribute shim s k v = None) ->
        prop_of (w_heap called) context "commandName" = Return operation ->
        prop_of (w_heap called) response "headers" = Return headers ->
        prop_of (w_heap called) headers "x-amzn-requestid" = Return requestId ->
        prop_of (w_heap called) (config_ref config) "serviceId" = Return serviceId ->
        attributes_of s (w_trace (snd run)) =
          attributes_of s (w_trace w) ++
          [("aws.operation", js_or operation UNKNOWN);
           ("aws.requestId", js_or requestId UNKNOWN);
           ("aws.service", js_or serviceId UNKNOWN);
           ("aws.region", VStr "Unknown")]).
Proof.
  intros Hregion run called.
  pose proof (attrMiddleware_run shim config next context args w) as Hrun.
  cbv zeta in Hrun. rewrite Hregion in Hrun. simpl in Hrun.
  fold run in Hrun. fold called in Hrun.
  destruct (fst (next args h1)) as [result|x] eqn:Hcalled; rewrite Hrun; simpl.
  - split; [done|]. split; [done|].
    intros ? [= <-]. split; [done|].
    intros response body req s headers operation requestId serviceId
      Hresponse Hbody Hreq Hseg Hacc Hop Hheaders Hid Hservice.
    rewrite (addAwsAttributes_found shim config result response body req
               context headers s called operation requestId serviceId
               VUndefined) by assumption.
    unfold called; simpl. rewrite !attributes_of_app; simpl.
    rewrite !decide_True by done. by rewrite app_nil_r.
  - split; [done|]. split; [by intros ? [= <-]|]. done.
Qed.

Lemma attrMiddleware_region_failure_witness :
  let run := attrMiddleware Sample.shim (Sample.config (Throw (VError "Error")))
               Sample.next Sample.context Sample.args
               (Sample.start {[ "x-amzn-requestid" := VStr "abc-123" ]}
                             {[ "serviceId" := VStr "DynamoDB" ]}) in
  fst run = Return Sample.result /\
  attributes_of 0 (w_trace (snd run)) =
    [] ++
    [("aws.operation", js_or (VStr "GetItem") UNKNOWN);
     ("aws.requestId", js_or (VStr "abc-123") UNKNOWN);
     ("aws.service", js_or (VStr "DynamoDB") UNKNOWN);
     ("aws.region", VStr "Unknown")].
Proof.
  pose proof (attrMiddleware_region_failure Sample.shim
                (Sample.config (Throw (VError "Error")))
                Sample.next Sample.context Sample.args
                (Sample.start {[ "x-amzn-requestid" := VStr "abc-123" ]}
                              {[ "serviceId" := VStr "DynamoDB" ]})
                (VError "Error")
                (Sample.heap_with {[ "x-amzn-requestid" := VStr "abc-123" ]}
                                  {[ "serviceId" := VStr "DynamoDB" ]}
                                  Sample.GetItem)
                eq_refl) as (Hout & _ & Hrec).
  split; [exact Hout|].
  refine (proj2 (Hrec Sample.result eq_refl)
            Sample.response Sample.body Sample.req 0 Sample.headers
            (VStr "GetItem") (VStr "abc-123") (VStr "DynamoDB")
            _ _ _ _ _ _ _ _ _);
    try (intros; vm_compute; reflexivity).
Defined.

(** ** headerMiddleware *)

Lemma headerMiddleware_run shim next args request lh w :
  prop_of (w_heap w) args "request" = Return request ->
  prop_of (w_heap w) request "headers" = Return (VObj lh) ->
  headerMiddleware shim next args w =
  (fst (next args (with_disable_dt (w_heap w) lh)),
   World (snd (next args (with_disable_dt (w_heap w) lh)))
     (w_trace w ++ [ENext args])).
Proof.
  intros Hrequest Hheaders. unfold headerMiddleware.
  rewrite (bind_Return _ _ w request w); [|by rewrite get_prop_run, Hrequest].
  rewrite (bind_Return _ _ w (VObj lh) w); [|by rewrite get_prop_run, Hheaders].
  unfold bind, set_prop, call_next, bind, emit, with_disable_dt; simpl.
  by destruct (next args _).
Qed.

(** Writing the header changes no property under another key, on any
    object. *)
Lemma prop_of_with_disable_dt h lh v k :
  k <> DISABLE_DT ->
  prop_of (with_disable_dt h lh) v k = prop_of h v k.
Proof.
  intros Hk. destruct v as [| | | | |l| |]; try done. simpl.
  unfold with_disable_dt. destruct (decide (l = lh)) as [->|Hl].
  - rewrite lookup_insert_eq.
    destruct (h !! lh); simpl; by rewrite lookup_insert_ne.
  - by rewrite lookup_insert_ne.
Qed.

(** C6: for a request with a headers object, the next handler is called on a
    heap in which the request's headers hold x-new-relic-disable-dt = true;
    the middleware's outcome is the next handler's outcome, and
    the heap it leaves is the one the next handler left, so the header is
    still there afterwards unless the next handler itself touched the headers
    object. *)
Theorem headerMiddleware_sets_header
    (shim : Shim) (next : handler) (args request : value) (lh : loc)
    (w : world) :
  prop_of (w_heap w) args "request" = Return request ->
  prop_of (w_heap w) request "headers" = Return (VObj lh) ->
  let h1 := with_disable_dt (w_heap w) lh in
  let run := headerMiddleware shim next args w in
  (prop_of h1 args "request" = Return request /\
   prop_of h1 request "headers" = Return (VObj lh) /\
   prop_of h1 (VObj lh) "x-new-relic-disable-dt" = Return (VStr "true")) /\
  run = (fst (next args h1),
         World (snd (next args h1)) (w_trace w ++ [ENext args])) /\
  fst run = fst (next args h1) /\
  next_calls (w_trace (snd run)) = S (next_calls (w_trace w)) /\
  (snd (next args h1) !! lh = h1 !! lh ->
   prop_of (w_heap (snd run)) (VObj lh) "x-new-relic-disable-dt"
     = Return (VStr "true")).
Proof.
  intros Hrequest Hheaders h1 run.
  assert (Hset : prop_of h1 (VObj lh) "x-new-relic-disable-dt"
                 = Return (VStr "true")).
  { subst h1. unfold with_disable_dt. simpl.
    by rewrite lookup_insert_eq; simpl; rewrite lookup_insert_eq. }
  assert (Hrun := headerMiddleware_run shim next args request lh w
                    Hrequest Hheaders).
  fold h1 in Hrun. fold run in Hrun.
  split; [|split; [done|]].
  - subst h1. split; [|split; [|done]].
    + by rewrite prop_of_with_disable_dt.
    + by rewrite prop_of_with_disable_dt.
  - rewrite Hrun; simpl. split; [done|]. split.
    + rewrite next_calls_app; simpl. lia.
    + intros Hkept. simpl in Hset. by rewrite Hkept.
Qed.

Lemma headerMiddleware_sets_header_witness :
  let w := Sample.start ∅ ∅ in
  let run := headerMiddleware Sample.shim Sample.next Sample.args w in
  fst run = Return Sample.result /\
  prop_of (w_heap (snd run)) Sample.request_headers "x-new-relic-disable-dt"
    = Return (VStr "true").
Proof.
  intros w run.
  destruct (headerMiddleware_sets_header Sample.shim Sample.next Sample.args
              Sample.request 10 w)
    as (_ & _ & Hout & _ & Hkept);
    [ vm_compute; reflexivity .. | ].
  split; [exact Hout | apply Hkept; reflexivity].
Defined.

(** C10: the write touches nothing but the one entry.  In the heap the next
    handler is called on, the headers object is the old one with
    x-new-relic-disable-dt set to true: every other key has the value it had
    (none is removed), a previous value under that key is replaced by true,
    and every other object is as it was. *)
Theorem headerMiddleware_keeps_other_headers
    (shim : Shim) (next : handler) (args request : value) (lh : loc)
    (hdrs : gmap string value) (w : world) :
  prop_of (w_heap w) args "request" = Return request ->
  prop_of (w_heap w) request "headers" = Return (VObj lh) ->
  w_heap w !! lh = Some hdrs ->
  exists h1 hdrs1,
    headerMiddleware shim next args w =
      (fst (next args h1),
       World (snd (next args h1)) (w_trace w ++ [ENext args])) /\
    h1 = <[lh := hdrs1]> (w_heap w) /\
    hdrs1 = <["x-new-relic-disable-dt" := VStr "true"]> hdrs /\
    (forall k, k <> "x-new-relic-disable-dt" -> hdrs1 !! k = hdrs !! k) /\
    (forall k, is_Some (hdrs !! k) -> is_Some (hdrs1 !! k)) /\
    hdrs1 !! "x-new-relic-disable-dt" = Some (VStr "true") /\
    (forall l, l <> lh -> h1 !! l = w_heap w !! l).
Proof.
  intros Hrequest Hheaders Hlh.
  exists (with_disable_dt (w_heap w) lh),
    (<["x-new-relic-disable-dt" := VStr "true"]> hdrs).
  split; [by eapply headerMiddleware_run|].
  split; [unfold with_disable_dt; by rewrite Hlh|].
  split; [done|].
  split; [intros k Hk; by rewrite lookup_insert_ne|].
  split.
  - intros k Hk. destruct (decide (k = "x-new-relic-disable-dt")) as [->|Hne].
    + rewrite lookup_insert_eq. by eexists.
    + by rewrite lookup_insert_ne.
  - split; [by rewrite lookup_insert_eq|].
    intros l Hl. unfold with_disable_dt. by rewrite lookup_insert_ne.
Qed.

Lemma headerMiddleware_keeps_other_headers_witness :
  let old : gmap string value :=
    <["x-new-relic-disable-dt" := VStr "false"]>
      {[ "host" := VStr "dynamodb.us-east-1.amazonaws.com" ]} in
  let w := World (<[10 := old]> (Sample.heap_with ∅ ∅ Sample.GetItem)) [] in
  exists h1 hdrs1,
    headerMiddleware Sample.shim Sample.next Sample.args w =
      (fst (Sample.next Sample.args h1),
       World (snd (Sample.next Sample.args h1))
         (w_trace w ++ [ENext Sample.args])) /\
    h1 = <[10 := hdrs1]> (w_heap w) /\
    hdrs1 = <["x-new-relic-disable-dt" := VStr "true"]> old /\
    (forall k, k <> "x-new-relic-disable-dt" -> hdrs1 !! k = old !! k) /\
    (forall k, is_Some (old !! k) -> is_Some (hdrs1 !! k)) /\
    hdrs1 !! "x-new-relic-disable-dt" = Some (VStr "true") /\
    (forall l, l <> 10 -> h1 !! l = w_heap w !! l).
Proof.
  intros old w.
  apply (headerMiddleware_keeps_other_headers Sample.shim Sample.next
           Sample.args Sample.request 10 old w);
    vm_compute; reflexivity.
Defined.

(** ** applyToStack *)

(** C7: on a stack whose [add] accepts them, [applyToStack] appends exactly
    two entries, NewRelicHeader (the header middleware, step finalizeRequest,
    priority low) and then NewRelicDeserialize (the attribute middleware,
    step deserialize, no priority), and returns undefined.  A failure of
    [add] is not caught: the exception of the first [add] leaves the stack
    as it was, that of the second leaves only the first entry added, and
    either one is the outcome of [applyToStack]. *)
Theorem applyToStack_registers_two
    (shim : Shim) (config : Config) (st : Stack) :
  let header := NewRelicHeader shim in
  let deserialize := NewRelicDeserialize shim config in
  let added l := {| entries := entries st ++ l; add_throws := add_throws st |} in
  (add_throws st (entries st) header = None ->
   add_throws st (entries st ++ [header]) deserialize = None ->
   applyToStack shim config st =
     (Return VUndefined, added [header; deserialize])) /\
  (forall e,
     add_throws st (entries st) header = Some e ->
     applyToStack shim config st = (Throw e, st)) /\
  (forall e,
     add_throws st (entries st) header = None ->
     add_throws st (entries st ++ [header]) deserialize = Some e ->
     applyToStack shim config st = (Throw e, added [header])) /\
  (forall next context,
     apply_middleware (fst header) next context = headerMiddleware shim next) /\
  (forall next context,
     apply_middleware (fst deserialize) next context =
     attrMiddleware shim config next context).
Proof.
  intros header deserialize added.
  unfold applyToStack, bind, stack_add, ret.
  fold (NewRelicHeader shim). fold (NewRelicDeserialize shim config).
  fold header. fold deserialize.
  split; [|split; [|split; [|done]]].
  - intros H1 H2. rewrite H1; cbn [entries add_throws]. rewrite H2.
    unfold added; cbn [entries add_throws]. by rewrite <- app_assoc.
  - intros e H1. by rewrite H1.
  - intros e H1 H2. rewrite H1; cbn [entries add_throws]. by rewrite H2.
Qed.

Lemma applyToStack_registers_two_witness :
  let config := Sample.config (Return (VStr "us-east-1")) in
  let st := {| entries := []; add_throws := fun _ _ => None |} in
  applyToStack Sample.shim config st =
  (Return VUndefined,
   {| entries := [] ++ [NewRelicHeader Sample.shim;
                        NewRelicDeserialize Sample.shim config];
      add_throws := add_throws st |}).
Proof.
  intros config st.
  exact (proj1 (applyToStack_registers_two Sample.shim config st)
           eq_refl eq_refl).
Defined.


(** ** addAwsAttributes on every input *)

Lemma js_or_UNKNOWN_truthy v : truthy (js_or v UNKNOWN) = true.
Proof. unfold js_or. by destruct (truthy v) eqn:H. Qed.

Lemma quiet_truthy_read x k :
  quiet_truthy (let* y := get_prop x k in ret (js_or y UNKNOWN)).
Proof.
  intros w. destruct (prop_of (w_heap w) x k) as [v|e] eqn:Hx.
  - left. exists (js_or v UNKNOWN). split; [|apply js_or_UNKNOWN_truthy].
    by rewrite (bind_Return _ _ w v w); [|rewrite get_prop_run, Hx].
  - right. exists e. by rewrite (bind_Throw _ _ w e w); [|rewrite get_prop_run, Hx].
Qed.

Lemma quiet_truthy_read_through x k1 k2 :
  quiet_truthy (let* o := get_prop x k1 in
                let* y := get_prop o k2 in ret (js_or y UNKNOWN)).
Proof.
  intros w. destruct (prop_of (w_heap w) x k1) as [o|e] eqn:Hx.
  - rewrite (bind_Return _ _ w o w); [|by rewrite get_prop_run, Hx].
    apply quiet_truthy_read.
  - right. exists e. by rewrite (bind_Throw _ _ w e w); [|rewrite get_prop_run, Hx].
Qed.

Lemma quiet_truthy_ret v : quiet_truthy (ret (js_or v UNKNOWN)).
Proof. intros w. left. eexists. split; [done|apply js_or_UNKNOWN_truthy]. Qed.

Lemma call_addAttribute_segment_step shim s key arg w :
  quiet_truthy arg ->
  (exists v, truthy v = true /\
     call_addAttribute shim (VSegment s) key arg w =
     (Return tt, World (w_heap w) (w_trace w ++ [EAddAttribute s key v]))) \/
  (exists e, call_addAttribute shim (VSegment s) key arg w = (Throw e, w)).
Proof.
  intros Harg. destruct (Harg w) as [(v & Hv & Ht) | (e & He)].
  - destruct (addAttribute shim s key v) as [e|] eqn:Hadd.
    + right. exists e. by eapply call_addAttribute_thrown.
    + left. exists v. split; [done|]. by eapply call_addAttribute_accepted.
  - right. exists e. unfold call_addAttribute. by erewrite bind_Throw.
Qed.

Lemma call_addAttribute_no_segment shim seg key arg w :
  quiet_truthy arg ->
  (forall s, seg <> VSegment s) ->
  exists e, call_addAttribute shim seg key arg w = (Throw e, w).
Proof.
  intros Harg Hseg.
  destruct seg; try (by eexists); try (by destruct (Hseg s));
    unfold call_addAttribute;
    (destruct (Harg w) as [(v & Hv & _) | (e & He)];
     [ exists TypeError; by rewrite (bind_Return _ _ w v w)
     | exists e; by rewrite (bind_Throw _ _ w e w) ]).
Qed.

Ltac trace_eq :=
  repeat match goal with x := _ |- _ => subst x end;
  unfold logger_debug, emit; simpl; rewrite <- ?app_assoc; reflexivity.

Lemma addAwsAttributes_shape shim result config region context w :
  exists lookups s kvs log,
    addAwsAttributes shim result config region context w =
      (Return tt,
       World (w_heap w)
         (w_trace w ++ lookups ++ (recorded s <$> kvs) ++ log)) /\
    (lookups = [] /\ kvs = [] \/
     exists req, lookups = [EGetSegment req] /\
       (kvs <> [] -> getSegment shim req = Return (VSegment s))) /\
    (exists n, n <= 4 /\ kvs.*1 = take n aws_keys) /\
    Forall (fun kv => truthy (snd kv) = true) kvs /\
    (length kvs = 4 /\ log = [] \/
     length kvs < 4 /\ exists err, log = [EDebug err FAILED_TO_ADD]).
Proof.
  unfold addAwsAttributes, try_catch, FAILED_TO_ADD.
  destruct (prop_of (w_heap w) result "response") as [response|e] eqn:H1.
  2:{ rewrite (bind_Throw _ _ w e w); [|by rewrite get_prop_run, H1].
      exists [], 0, [], [EDebug e "Failed to add AWS attributes to segment"].
      split; [done|]. split; [by left|]. split; [exists 0; split; [lia|done]|].
      split; [done|]. right. split; [simpl; lia|by eexists]. }
  rewrite (bind_Return _ _ w response w); [|by rewrite get_prop_run, H1].
  destruct (prop_of (w_heap w) response "body") as [body|e] eqn:H2.
  2:{ rewrite (bind_Throw _ _ w e w); [|by rewrite get_prop_run, H2].
      exists [], 0, [], [EDebug e "Failed to add AWS attributes to segment"].
      split; [done|]. split; [by left|]. split; [exists 0; split; [lia|done]|].
      split; [done|]. right. split; [simpl; lia|by eexists]. }
  rewrite (bind_Return _ _ w body w); [|by rewrite get_prop_run, H2].
  destruct (prop_of (w_heap w) body "req") as [req|e] eqn:H3.
  2:{ rewrite (bind_Throw _ _ w e w); [|by rewrite get_prop_run, H3].
      exists [], 0, [], [EDebug e "Failed to add AWS attributes to segment"].
      split; [done|]. split; [by left|]. split; [exists 0; split; [lia|done]|].
      split; [done|]. right. split; [simpl; lia|by eexists]. }
  rewrite (bind_Return _ _ w req w); [|by rewrite get_prop_run, H3].
  set (w1 := World (w_heap w) (w_trace w ++ [EGetSegment req])).
  destruct (getSegment shim req) as [seg|e] eqn:Hseg.
  2:{ rewrite (bind_Throw _ _ w e w1); [|by rewrite call_getSegment_run, Hseg].
      exists [EGetSegment req], 0, [],
        [EDebug e "Failed to add AWS attributes to segment"].
      split; [trace_eq|].
      split; [right; by eexists|]. split; [exists 0; split; [lia|done]|].
      split; [done|]. right. split; [simpl; lia|by eexists]. }
  rewrite (bind_Return _ _ w seg w1); [|by rewrite call_getSegment_run, Hseg].
  assert (Hcase : (exists s, seg = VSegment s) \/ (forall s, seg <> VSegment s)).
  { destruct seg; try (right; intros ?; discriminate). left. by eexists. }
  destruct Hcase as [[s ->]|Hno].
  2:{ destruct (call_addAttribute_no_segment shim seg "aws.operation"
                  (let* v := get_prop context "commandName" in
                   ret (js_or v UNKNOWN)) w1) as [e He].
      { apply quiet_truthy_read. }
      { exact Hno. }
      rewrite (bind_Throw _ _ w1 e w1 He).
      exists [EGetSegment req], 0, [],
        [EDebug e "Failed to add AWS attributes to segment"].
      split; [trace_eq|].
      split; [right; by eexists|]. split; [exists 0; split; [lia|done]|].
      split; [done|]. right. split; [simpl; lia|by eexists]. }
  destruct (call_addAttribute_segment_step shim s "aws.operation"
              (let* v := get_prop context "commandName" in
               ret (js_or v UNKNOWN)) w1 (quiet_truthy_read _ _))
    as [(v1 & Ht1 & E1) | (e & E1)].
  2:{ rewrite (bind_Throw _ _ w1 e w1 E1).
      exists [EGetSegment req], s, [],
        [EDebug e "Failed to add AWS attributes to segment"].
      split; [trace_eq|].
      split; [right; by eexists|]. split; [exists 0; split; [lia|done]|].
      split; [done|]. right. split; [simpl; lia|by eexists]. }
  rewrite (bind_Return _ _ _ _ _ E1).
  set (w2 := World (w_heap w1) (w_trace w1 ++ [EAddAttribute s "aws.operation" v1])).
  destruct (call_addAttribute_segment_step shim s "aws.requestId"
              (let* headers := get_prop response "headers" in
               let* v := get_prop headers "x-amzn-requestid" in
               ret (js_or v UNKNOWN)) w2 (quiet_truthy_read_through _ _ _))
    as [(v2 & Ht2 & E2) | (e & E2)].
  2:{ rewrite (bind_Throw _ _ w2 e w2 E2).
      exists [EGetSegment req], s, [("aws.operation", v1)],
        [EDebug e "Failed to add AWS attributes to segment"].
      split; [trace_eq|].
      split; [right; by eexists|]. split; [exists 1; split; [lia|done]|].
      split; [by repeat constructor|]. right. split; [simpl; lia|by eexists]. }
  rewrite (bind_Return _ _ _ _ _ E2).
  set (w3 := World (w_heap w2) (w_trace w2 ++ [EAddAttribute s "aws.requestId" v2])).
  destruct (call_addAttribute_segment_step shim s "aws.service"
              (let* v := get_prop (config_ref config) "serviceId" in
               ret (js_or v UNKNOWN)) w3 (quiet_truthy_read _ _))
    as [(v3 & Ht3 & E3) | (e & E3)].
  2:{ rewrite (bind_Throw _ _ w3 e w3 E3).
      exists [EGetSegment req], s,
        [("aws.operation", v1); ("aws.requestId", v2)],
        [EDebug e "Failed to add AWS attributes to segment"].
      split; [trace_eq|].
      split; [right; by eexists|]. split; [exists 2; split; [lia|done]|].
      split; [by repeat constructor|]. right. split; [simpl; lia|by eexists]. }
  rewrite (bind_Return _ _ _ _ _ E3).
  set (w4 := World (w_heap w3) (w_trace w3 ++ [EAddAttribute s "aws.service" v3])).
  destruct (call_addAttribute_segment_step shim s "aws.region"
              (ret (js_or region UNKNOWN)) w4 (quiet_truthy_ret _))
    as [(v4 & Ht4 & E4) | (e & E4)].
  - rewrite E4.
    exists [EGetSegment req], s,
      [("aws.operation", v1); ("aws.requestId", v2); ("aws.service", v3);
       ("aws.region", v4)], [].
    split; [trace_eq|].
    split; [right; by eexists|]. split; [exists 4; split; [lia|done]|].
    split; [by repeat constructor|]. by left.
  - rewrite E4.
    exists [EGetSegment req], s,
      [("aws.operation", v1); ("aws.requestId", v2); ("aws.service", v3)],
      [EDebug e "Failed to add AWS attributes to segment"].
    split; [trace_eq|].
    split; [right; by eexists|]. split; [exists 3; split; [lia|done]|].
    split; [by repeat constructor|]. right. split; [simpl; lia|by eexists].
Qed.

Lemma new_events_app t post : new_events t (t ++ post) = post.
Proof. unfold new_events. by rewrite drop_app_length. Qed.

Lemma attribute_events_app t1 t2 :
  attribute_events (t1 ++ t2) = attribute_events t1 ++ attribute_events t2.
Proof.
  induction t1 as [|ev t1 IH]; [done|]. destruct ev; simpl; by rewrite ?IH.
Qed.

Lemma debug_entries_app t1 t2 :
  debug_entries (t1 ++ t2) = debug_entries t1 ++ debug_entries t2.
Proof.
  induction t1 as [|ev t1 IH]; [done|]. destruct ev; simpl; by rewrite ?IH.
Qed.

Lemma segment_lookups_app t1 t2 :
  segment_lookups (t1 ++ t2) = segment_lookups t1 ++ segment_lookups t2.
Proof.
  induction t1 as [|ev t1 IH]; [done|]. destruct ev; simpl; by rewrite ?IH.
Qed.

Lemma attribute_events_recorded s kvs :
  attribute_events (recorded s <$> kvs) = (fun kv => (s, fst kv, snd kv)) <$> kvs.
Proof.
  induction kvs as [|[k v] kvs IH]; [done|].
  rewrite !fmap_cons. unfold recorded at 1. cbn [attribute_events fst snd].
  by rewrite IH.
Qed.

Lemma debug_entries_recorded s kvs : debug_entries (recorded s <$> kvs) = [].
Proof. by induction kvs as [|[k v] kvs IH]. Qed.

Lemma segment_lookups_recorded s kvs : segment_lookups (recorded s <$> kvs) = [].
Proof. by induction kvs as [|[k v] kvs IH]. Qed.

Lemma attribute_events_shape lookups s kvs log :
  (lookups = [] \/ exists req, lookups = [EGetSegment req]) ->
  (log = [] \/ exists err, log = [EDebug err FAILED_TO_ADD]) ->
  attribute_events (lookups ++ (recorded s <$> kvs) ++ log) =
  (fun kv => (s, fst kv, snd kv)) <$> kvs.
Proof.
  intros Hl Hlog. rewrite !attribute_events_app, attribute_events_recorded.
  destruct Hl as [->|[req ->]], Hlog as [->|[err ->]]; simpl;
    by rewrite ?app_nil_r.
Qed.

(** X1: whatever the input and whatever the agent does, every attribute
    [addAwsAttributes] records has one of the four aws.* keys and a truthy
    value: it never records undefined, null, an empty string, 0 or false. *)
Theorem addAwsAttributes_values_truthy
    (shim : Shim) (config : Config) (result region context : value) (w : world) :
  let run := addAwsAttributes shim result config region context w in
  Forall (fun a => a.1.2 ∈ aws_keys /\ truthy a.2 = true)
    (attribute_events (new_events (w_trace w) (w_trace (snd run)))).
Proof.
  intros run. subst run.
  destruct (addAwsAttributes_shape shim result config region context w)
    as (lookups & s & kvs & log & -> & Hl & (n & Hn & Hkeys) & Htruthy & Hlog).
  simpl. rewrite new_events_app, attribute_events_shape.
  - apply Forall_fmap, Forall_forall. intros [k v] Hkv. simpl. split.
    + assert (Hk : k ∈ kvs.*1) by (apply list_elem_of_fmap; by exists (k, v)).
      rewrite Hkeys in Hk. eapply subseteq_take, Hk.
    + rewrite Forall_forall in Htruthy. by apply (Htruthy (k, v)).
  - destruct Hl as [[-> _]|[req [-> _]]]; [by left|right; by eexists].
  - destruct Hlog as [[_ ->]|[_ [err ->]]]; [by left|right; by eexists].
Qed.

(** X2: on every input [addAwsAttributes] either records all four attributes
    and logs nothing, or records fewer than four and logs exactly one entry,
    with the message 'Failed to add AWS attributes to segment'. *)
Theorem addAwsAttributes_logs_iff_incomplete
    (shim : Shim) (config : Config) (result region context : value) (w : world) :
  let run := addAwsAttributes shim result config region context w in
  let post := new_events (w_trace w) (w_trace (snd run)) in
  (length (attribute_events post) = 4 /\ debug_entries post = []) \/
  (length (attribute_events post) < 4 /\
   exists err, debug_entries post = [(err, FAILED_TO_ADD)]).
Proof.
  intros run post. subst post run.
  destruct (addAwsAttributes_shape shim result config region context w)
    as (lookups & s & kvs & log & -> & Hl & _ & _ & Hlog).
  simpl. rewrite new_events_app.
  assert (Hl' : lookups = [] \/ exists req, lookups = [EGetSegment req]).
  { destruct Hl as [[-> _]|[req [-> _]]]; [by left|right; by eexists]. }
  assert (Hd : debug_entries lookups = []).
  { by destruct Hl' as [->|[req ->]]. }
  rewrite !debug_entries_app, debug_entries_recorded, Hd.
  destruct Hlog as [[Hlen ->]|[Hlen [err ->]]].
  - left. rewrite attribute_events_shape by (done || by left).
    by rewrite length_fmap.
  - right. rewrite attribute_events_shape by (done || (right; by eexists)).
    rewrite length_fmap. split; [done|by exists err].
Qed.

(** X3: on every input the attributes recorded are, in this order, the first
    n of aws.operation, aws.requestId, aws.service, aws.region for some
    n <= 4, all on one segment; the segment lookup is made at most once, and
    when anything is recorded that segment is the one the lookup returned. *)
Theorem addAwsAttributes_keys_in_order
    (shim : Shim) (config : Config) (result region context : value) (w : world) :
  let run := addAwsAttributes shim result config region context w in
  let post := new_events (w_trace w) (w_trace (snd run)) in
  exists s n,
    n <= 4 /\
    fst <$> attribute_events post = (fun k => (s, k)) <$> take n aws_keys /\
    length (segment_lookups post) <= 1 /\
    (attribute_events post <> [] ->
     exists req, segment_lookups post = [req] /\
                 getSegment shim req = Return (VSegment s)).
Proof.
  intros run post. subst post run.
  destruct (addAwsAttributes_shape shim result config region context w)
    as (lookups & s & kvs & log & -> & Hl & (n & Hn & Hkeys) & _ & Hlog).
  simpl. rewrite new_events_app.
  assert (Hl' : lookups = [] \/ exists req, lookups = [EGetSegment req]).
  { destruct Hl as [[-> _]|[req [-> _]]]; [by left|right; by eexists]. }
  assert (Hlog' : log = [] \/ exists err, log = [EDebug err FAILED_TO_ADD]).
  { destruct Hlog as [[_ ->]|[_ [err ->]]]; [by left|right; by eexists]. }
  assert (Hs : segment_lookups log = []).
  { by destruct Hlog' as [->|[err ->]]. }
  rewrite attribute_events_shape by done.
  rewrite !segment_lookups_app, segment_lookups_recorded, Hs, !app_nil_r.
  exists s, n. split; [done|]. split.
  - rewrite <- Hkeys, <- !list_fmap_compose. by apply list_fmap_ext.
  - destruct Hl as [[-> ->]|[req [-> Hfound]]]; simpl.
    + split; [lia|done].
    + split; [lia|]. intros Hne. exists req. split; [done|].
      apply Hfound. by intros ->.
Qed.

(** ** addAwsAttributes: missing pieces *)

Lemma prop_of_nullish h v k : nullish v = true -> prop_of h v k = Throw TypeError.
Proof. by destruct v. Qed.

Lemma prop_of_Throw h v k e : prop_of h v k = Throw e -> e = TypeError.
Proof. destruct v; simpl; try done; try congruence. by destruct (h !! l). Qed.

(** X4: when the result is undefined or null, or has no response, or the
    response has no body, [addAwsAttributes] never asks the agent for a
    segment: it logs one TypeError and does nothing else. *)
Theorem addAwsAttributes_without_response
    (shim : Shim) (config : Config) (result region context : value) (w : world) :
  nullish result = true \/
  (exists response,
     prop_of (w_heap w) result "response" = Return response /\
     (nullish response = true \/
      exists body,
        prop_of (w_heap w) response "body" = Return body /\
        nullish body = true)) ->
  addAwsAttributes shim result config region context w =
    (Return tt,
     World (w_heap w) (w_trace w ++ [EDebug TypeError FAILED_TO_ADD])).
Proof.
  intros Hmissing. unfold addAwsAttributes, try_catch.
  destruct Hmissing as [Hres | (response & Hresponse & [Hresp | (body & Hbody & Hb)])].
  - rewrite (bind_Throw _ _ w TypeError w);
      [done | by rewrite get_prop_run, prop_of_nullish].
  - rewrite (bind_Return _ _ w response w); [|by rewrite get_prop_run, Hresponse].
    rewrite (bind_Throw _ _ w TypeError w);
      [done | by rewrite get_prop_run, prop_of_nullish].
  - rewrite (bind_Return _ _ w response w); [|by rewrite get_prop_run, Hresponse].
    rewrite (bind_Return _ _ w body w); [|by rewrite get_prop_run, Hbody].
    rewrite (bind_Throw _ _ w TypeError w);
      [done | by rewrite get_prop_run, prop_of_nullish].
Qed.

Lemma addAwsAttributes_without_response_witness :
  addAwsAttributes Sample.shim Sample.req
    (Sample.config (Return (VStr "us-east-1"))) (VStr "us-east-1")
    Sample.context (Sample.start ∅ ∅) =
  (Return tt,
   World (Sample.heap_with ∅ ∅ Sample.GetItem) [EDebug TypeError FAILED_TO_ADD]).
Proof.
  apply (addAwsAttributes_without_response Sample.shim
           (Sample.config (Return (VStr "us-east-1")))
           Sample.req (VStr "us-east-1") Sample.context (Sample.start ∅ ∅)).
  right. exists VUndefined. split; [vm_compute; reflexivity | left; reflexivity].
Defined.

(** X5: when [shim.getSegment] returns something that is not a segment (a
    plain object, a string, a number, as well as undefined and null), the
    first recording call fails with a TypeError: nothing is recorded and the
    TypeError is logged after the lookup. *)
Theorem addAwsAttributes_lookup_not_a_segment
    (shim : Shim) (config : Config)
    (result response body req region context found : value) (w : world) :
  prop_of (w_heap w) result "response" = Return response ->
  prop_of (w_heap w) response "body" = Return body ->
  prop_of (w_heap w) body "req" = Return req ->
  getSegment shim req = Return found ->
  (forall s, found <> VSegment s) ->
  addAwsAttributes shim result config region context w =
    (Return tt,
     World (w_heap w)
       (w_trace w ++ [EGetSegment req; EDebug TypeError FAILED_TO_ADD])).
Proof.
  intros Hresponse Hbody Hreq Hseg Hno. unfold addAwsAttributes, try_catch.
  rewrite (bind_Return _ _ w response w); [|by rewrite get_prop_run, Hresponse].
  rewrite (bind_Return _ _ w body w); [|by rewrite get_prop_run, Hbody].
  rewrite (bind_Return _ _ w req w); [|by rewrite get_prop_run, Hreq].
  set (w1 := World (w_heap w) (w_trace w ++ [EGetSegment req])).
  rewrite (bind_Return _ _ w found w1); [|by rewrite call_getSegment_run, Hseg].
  assert (Hcall : call_addAttribute shim found "aws.operation"
                    (let* v := get_prop context "commandName" in
                     ret (js_or v UNKNOWN)) w1 = (Throw TypeError, w1)).
  { unfold call_addAttribute.
    destruct found; try done; try (by destruct (Hno s));
      (destruct (prop_of (w_heap w1) context "commandName") as [v|e] eqn:Hc;
       [ rewrite (bind_Return _ _ w1 (js_or v UNKNOWN) w1); [done|];
         by rewrite (bind_Return _ _ w1 v w1); [|rewrite get_prop_run, Hc]
       | apply prop_of_Throw in Hc as He; subst e;
         rewrite (bind_Throw _ _ w1 TypeError w1); [done|];
         by rewrite (bind_Throw _ _ w1 TypeError w1);
           [|rewrite get_prop_run, Hc] ]). }
  rewrite (bind_Throw _ _ w1 TypeError w1 Hcall).
  subst w1. unfold logger_debug, emit, FAILED_TO_ADD; simpl.
  by rewrite <- app_assoc.
Qed.

Lemma addAwsAttributes_lookup_not_a_segment_witness :
  let shim := {| getSegment := fun _ => Return (VStr "segment");
                 addAttribute := fun _ _ _ => None |} in
  addAwsAttributes shim Sample.result
    (Sample.config (Return (VStr "us-east-1"))) (VStr "us-east-1")
    Sample.context (Sample.start ∅ ∅) =
  (Return tt,
   World (Sample.heap_with ∅ ∅ Sample.GetItem)
     ([] ++ [EGetSegment Sample.req; EDebug TypeError FAILED_TO_ADD])).
Proof.
  intros shim.
  apply (addAwsAttributes_lookup_not_a_segment shim
           (Sample.config (Return (VStr "us-east-1")))
           Sample.result Sample.response Sample.body Sample.req
           (VStr "us-east-1") Sample.context (VStr "segment")
           (Sample.start ∅ ∅));
    try (vm_compute; reflexivity).
  intros s; discriminate.
Defined.

(** X6: when the response has no headers (undefined or null) while the
    segment is found, only aws.operation is recorded: reading the request id
    fails with a TypeError, which is logged, and aws.requestId, aws.service
    and aws.region are all skipped. *)
Theorem addAwsAttributes_without_headers
    (shim : Shim) (config : Config)
    (result response body req region context operation headers : value)
    (s : segment) (w : world) :
  prop_of (w_heap w) result "response" = Return response ->
  prop_of (w_heap w) response "body" = Return body ->
  prop_of (w_heap w) body "req" = Return req ->
  getSegment shim req = Return (VSegment s) ->
  prop_of (w_heap w) context "commandName" = Return operation ->
  addAttribute shim s "aws.operation" (js_or operation UNKNOWN) = None ->
  prop_of (w_heap w) response "headers" = Return headers ->
  nullish headers = true ->
  addAwsAttributes shim result config region context w =
    (Return tt,
     World (w_heap w)
       (w_trace w ++
        [EGetSegment req;
         EAddAttribute s "aws.operation" (js_or operation UNKNOWN);
         EDebug TypeError FAILED_TO_ADD])).
Proof.
  intros Hresponse Hbody Hreq Hseg Hop Hacc Hheaders Hnull.
  unfold addAwsAttributes, try_catch.
  rewrite (bind_Return _ _ w response w); [|by rewrite get_prop_run, Hresponse].
  rewrite (bind_Return _ _ w body w); [|by rewrite get_prop_run, Hbody].
  rewrite (bind_Return _ _ w req w); [|by rewrite get_prop_run, Hreq].
  set (w1 := World (w_heap w) (w_trace w ++ [EGetSegment req])).
  rewrite (bind_Return _ _ w (VSegment s) w1);
    [|by rewrite call_getSegment_run, Hseg].
  erewrite bind_Return; last first.
  { eapply call_addAttribute_accepted; [|exact Hacc]. by apply read_or_unknown. }
  erewrite bind_Throw; last first.
  { unfold call_addAttribute. eapply bind_Throw.
    erewrite bind_Return; [|by rewrite get_prop_run; simpl; rewrite Hheaders].
    eapply bind_Throw. by rewrite get_prop_run, prop_of_nullish. }
  subst w1. unfold logger_debug, emit, FAILED_TO_ADD; simpl.
  by rewrite <- !app_assoc.
Qed.

Lemma addAwsAttributes_without_headers_witness :
  let w := World (<[2 := {[ "body" := Sample.body ]}]>
                    (Sample.heap_with ∅ ∅ Sample.GetItem)) [] in
  addAwsAttributes Sample.shim Sample.result
    (Sample.config (Return (VStr "us-east-1"))) (VStr "us-east-1")
    Sample.context w =
  (Return tt,
   World (w_heap w)
     ([] ++ [EGetSegment Sample.req;
             EAddAttribute 0 "aws.operation" (js_or (VStr "GetItem") UNKNOWN);
             EDebug TypeError FAILED_TO_ADD])).
Proof.
  intros w.
  apply (addAwsAttributes_without_headers Sample.shim
           (Sample.config (Return (VStr "us-east-1")))
           Sample.result Sample.response Sample.body Sample.req
           (VStr "us-east-1") Sample.context (VStr "GetItem") VUndefined 0 w);
    vm_compute; reflexivity.
Defined.

(** X7: when the invocation context is undefined or null, nothing is
    recorded even though the segment was found: reading the command name
    fails with a TypeError before the first recording call is made. *)
Theorem addAwsAttributes_without_context
    (shim : Shim) (config : Config)
    (result response body req region context : value) (s : segment)
    (w : world) :
  prop_of (w_heap w) result "response" = Return response ->
  prop_of (w_heap w) response "body" = Return body ->
  prop_of (w_heap w) body "req" = Return req ->
  getSegment shim req = Return (VSegment s) ->
  nullish context = true ->
  addAwsAttributes shim result config region context w =
    (Return tt,
     World (w_heap w)
       (w_trace w ++ [EGetSegment req; EDebug TypeError FAILED_TO_ADD])).
Proof.
  intros Hresponse Hbody Hreq Hseg Hnull.
  unfold addAwsAttributes, try_catch.
  rewrite (bind_Return _ _ w response w); [|by rewrite get_prop_run, Hresponse].
  rewrite (bind_Return _ _ w body w); [|by rewrite get_prop_run, Hbody].
  rewrite (bind_Return _ _ w req w); [|by rewrite get_prop_run, Hreq].
  set (w1 := World (w_heap w) (w_trace w ++ [EGetSegment req])).
  rewrite (bind_Return _ _ w (VSegment s) w1);
    [|by rewrite call_getSegment_run, Hseg].
  erewrite bind_Throw; last first.
  { unfold call_addAttribute. eapply bind_Throw.
    eapply bind_Throw. by rewrite get_prop_run, prop_of_nullish. }
  subst w1. unfold logger_debug, emit, FAILED_TO_ADD; simpl.
  by rewrite <- !app_assoc.
Qed.

Lemma addAwsAttributes_without_context_witness :
  addAwsAttributes Sample.shim Sample.result
    (Sample.config (Return (VStr "us-east-1"))) (VStr "us-east-1")
    VUndefined (Sample.start ∅ ∅) =
  (Return tt,
   World (Sample.heap_with ∅ ∅ Sample.GetItem)
     ([] ++ [EGetSegment Sample.req; EDebug TypeError FAILED_TO_ADD])).
Proof.
  apply (addAwsAttributes_without_context Sample.shim
           (Sample.config (Return (VStr "us-east-1")))
           Sample.result Sample.response Sample.body Sample.req
           (VStr "us-east-1") VUndefined 0 (Sample.start ∅ ∅));
    vm_compute; reflexivity.
Defined.

(** ** attrMiddleware: the whole round *)

(** X8: when the region resolves, the next handler returns a result and the
    segment for that result is found and accepts the writes, one run of the
    attribute middleware calls the region provider, then the next handler,
    then looks the segment up and records the four attributes, with the
    resolved region (or Unknown when it is falsy) as aws.region; nothing is
    logged and the result is returned. *)
Theorem attrMiddleware_records_resolved_region
    (shim : Shim) (config : Config) (next : handler)
    (context args resolved result : value)
    (h1 h2 : gmap loc (gmap string value))
    (response body req headers operation requestId serviceId : value)
    (s : segment) (w : world) :
  config_region config (w_heap w) = (Return resolved, h1) ->
  next args h1 = (Return result, h2) ->
  prop_of h2 result "response" = Return response ->
  prop_of h2 response "body" = Return body ->
  prop_of h2 body "req" = Return req ->
  getSegment shim req = Return (VSegment s) ->
  (forall k v, addAttribute shim s k v = None) ->
  prop_of h2 context "commandName" = Return operation ->
  prop_of h2 response "headers" = Return headers ->
  prop_of h2 headers "x-amzn-requestid" = Return requestId ->
  prop_of h2 (config_ref config) "serviceId" = Return serviceId ->
  attrMiddleware shim config next context args w =
    (Return result,
     World h2
       (w_trace w ++
        [ERegion; ENext args; EGetSegment req;
         EAddAttribute s "aws.operation" (js_or operation UNKNOWN);
         EAddAttribute s "aws.requestId" (js_or requestId UNKNOWN);
         EAddAttribute s "aws.service" (js_or serviceId UNKNOWN);
         EAddAttribute s "aws.region" (js_or resolved UNKNOWN)])).
Proof.
  intros Hregion Hnext Hresponse Hbody Hreq Hseg Hacc Hop Hheaders Hid Hservice.
  pose proof (attrMiddleware_run shim config next context args w) as Hrun.
  cbv zeta in Hrun. rewrite Hregion in Hrun. simpl in Hrun.
  rewrite Hnext in Hrun. simpl in Hrun. rewrite Hrun.
  rewrite (addAwsAttributes_found shim config result response body req context
             headers s _ operation requestId serviceId resolved) by assumption.
  simpl. by rewrite <- !app_assoc.
Qed.

Lemma attrMiddleware_records_resolved_region_witness :
  let w := Sample.start {[ "x-amzn-requestid" := VStr "abc-123" ]}
                        {[ "serviceId" := VStr "DynamoDB" ]} in
  attrMiddleware Sample.shim (Sample.config (Return (VStr "eu-west-1")))
    Sample.next Sample.context Sample.args w =
  (Return Sample.result,
   World (w_heap w)
     (w_trace w ++
      [ERegion; ENext Sample.args; EGetSegment Sample.req;
       EAddAttribute 0 "aws.operation" (js_or (VStr "GetItem") UNKNOWN);
       EAddAttribute 0 "aws.requestId" (js_or (VStr "abc-123") UNKNOWN);
       EAddAttribute 0 "aws.service" (js_or (VStr "DynamoDB") UNKNOWN);
       EAddAttribute 0 "aws.region" (js_or (VStr "eu-west-1") UNKNOWN)])).
Proof.
  intros w.
  apply (attrMiddleware_records_resolved_region Sample.shim
           (Sample.config (Return (VStr "eu-west-1"))) Sample.next
           Sample.context Sample.args (VStr "eu-west-1") Sample.result
           (w_heap w) (w_heap w)
           Sample.response Sample.body Sample.req Sample.headers
           (VStr "GetItem") (VStr "abc-123") (VStr "DynamoDB") 0 w);
    try (intros; vm_compute; reflexivity).
Defined.

(** X9: the tracing side cannot change what the caller gets.  Two runs of
    the attribute middleware that differ only in the agent's shim and in the
    invocation context have the same outcome (the next handler's result or
    exception) and leave the same heap. *)
Theorem attrMiddleware_outcome_independent_of_agent
    (shim1 shim2 : Shim) (config : Config) (next : handler)
    (context1 context2 args : value) (w : world) :
  let run1 := attrMiddleware shim1 config next context1 args w in
  let run2 := attrMiddleware shim2 config next context2 args w in
  fst run1 = fst run2 /\ w_heap (snd run1) = w_heap (snd run2).
Proof.
  intros run1 run2. subst run1 run2.
  rewrite !attrMiddleware_run. cbv zeta.
  destruct (fst (next args (snd (config_region config (w_heap w)))))
    as [result|x]; simpl; [|done].
  split; [done|]. by rewrite !reads_only_addAwsAttributes.
Qed.

(** ** headerMiddleware: malformed requests and repeated runs *)

(** X10: when the arguments carry no request, the request carries no headers,
    or the headers are a primitive, the header middleware throws a TypeError
    without calling the next handler and without writing anything. *)
Theorem headerMiddleware_malformed_request
    (shim : Shim) (next : handler) (args : value) (w : world) :
  nullish args = true \/
  (exists request,
     prop_of (w_heap w) args "request" = Return request /\
     (nullish request = true \/
      exists headers,
        prop_of (w_heap w) request "headers" = Return headers /\
        (nullish headers = true \/ primitive headers = true))) ->
  headerMiddleware shim next args w = (Throw TypeError, w).
Proof.
  intros Hbad. unfold headerMiddleware.
  destruct Hbad as [Hargs | (request & Hrequest & [Hreq | (headers & Hheaders & Hh)])].
  - by rewrite (bind_Throw _ _ w TypeError w);
      [|rewrite get_prop_run, prop_of_nullish].
  - rewrite (bind_Return _ _ w request w); [|by rewrite get_prop_run, Hrequest].
    by rewrite (bind_Throw _ _ w TypeError w);
      [|rewrite get_prop_run, prop_of_nullish].
  - rewrite (bind_Return _ _ w request w); [|by rewrite get_prop_run, Hrequest].
    rewrite (bind_Return _ _ w headers w); [|by rewrite get_prop_run, Hheaders].
    rewrite (bind_Throw _ _ w TypeError w); [done|].
    unfold set_prop. destruct w as [h t]; simpl.
    by destruct Hh as [Hh|Hh]; destruct headers.
Qed.

Lemma headerMiddleware_malformed_request_witness :
  headerMiddleware Sample.shim Sample.next Sample.req (Sample.start ∅ ∅) =
  (Throw TypeError, Sample.start ∅ ∅).
Proof.
  apply (headerMiddleware_malformed_request Sample.shim Sample.next
           Sample.req (Sample.start ∅ ∅)).
  right. exists VUndefined. split; [vm_compute; reflexivity | left; reflexivity].
Defined.

(** X11: running the header middleware on a request whose headers already
    hold x-new-relic-disable-dt = true changes nothing: the next handler is
    called on the heap exactly as it was. *)
Theorem headerMiddleware_header_already_set
    (shim : Shim) (next : handler) (args request : value) (lh : loc)
    (hdrs : gmap string value) (w : world) :
  prop_of (w_heap w) args "request" = Return request ->
  prop_of (w_heap w) request "headers" = Return (VObj lh) ->
  w_heap w !! lh = Some hdrs ->
  hdrs !! "x-new-relic-disable-dt" = Some (VStr "true") ->
  headerMiddleware shim next args w =
    (fst (next args (w_heap w)),
     World (snd (next args (w_heap w))) (w_trace w ++ [ENext args])).
Proof.
  intros Hrequest Hheaders Hlh Hset.
  rewrite (headerMiddleware_run shim next args request lh w Hrequest Hheaders).
  assert (Hsame : with_disable_dt (w_heap w) lh = w_heap w).
  { unfold with_disable_dt. rewrite Hlh; simpl.
    rewrite (insert_id hdrs) by done. by apply insert_id. }
  by rewrite Hsame.
Qed.

Lemma headerMiddleware_header_already_set_witness :
  let w := World (<[10 := {[ "x-new-relic-disable-dt" := VStr "true" ]}]>
                    (Sample.heap_with ∅ ∅ Sample.GetItem)) [] in
  headerMiddleware Sample.shim Sample.next Sample.args w =
  (fst (Sample.next Sample.args (w_heap w)),
   World (snd (Sample.next Sample.args (w_heap w)))
     (w_trace w ++ [ENext Sample.args])).
Proof.
  intros w.
  apply (headerMiddleware_header_already_set Sample.shim Sample.next
           Sample.args Sample.request 10
           {[ "x-new-relic-disable-dt" := VStr "true" ]} w);
    vm_compute; reflexivity.
Defined.

(** ** applyToStack on every stack *)

(** X12: whatever the stack's [add] does, [applyToStack] leaves the entries
    that were registered before in place and in order, and appends the first
    n of NewRelicHeader, NewRelicDeserialize for some n <= 2: the attribute
    middleware is never registered without the header middleware.  It
    returns (undefined) exactly when both were registered, and otherwise
    throws. *)
Theorem applyToStack_keeps_existing_entries
    (shim : Shim) (config : Config) (st : Stack) :
  let run := applyToStack shim config st in
  exists n,
    n <= 2 /\
    entries (snd run) =
      entries st ++ take n [NewRelicHeader shim; NewRelicDeserialize shim config] /\
    add_throws (snd run) = add_throws st /\
    (n = 2 -> fst run = Return VUndefined) /\
    (n < 2 -> exists e, fst run = Throw e).
Proof.
  intros run. subst run. unfold applyToStack, bind, stack_add, ret.
  fold (NewRelicHeader shim). fold (NewRelicDeserialize shim config).
  destruct (add_throws st (entries st) (NewRelicHeader shim)) as [e|] eqn:H1.
  - exists 0. simpl. rewrite app_nil_r.
    repeat split; try done; try lia. intros _. by exists e.
  - cbn [entries add_throws].
    destruct (add_throws st (entries st ++ [NewRelicHeader shim])
                (NewRelicDeserialize shim config)) as [e|] eqn:H2.
    + exists 1. simpl. repeat split; try done; try lia. intros _. by exists e.
    + exists 2. simpl. rewrite <- app_assoc.
      repeat split; try done; try lia.
Qed.

Lemma find_entry_app nm l l' :
  find_entry nm l = None -> find_entry nm (l ++ l') = find_entry nm l'.
Proof.
  unfold find_entry. induction l as [|e l IH]; [done|].
  simpl. destruct (String.eqb (name e.2) nm); [done|]. apply IH.
Qed.

(** X13: after [applyToStack] on a stack that accepts both entries and had
    none under these names, the entry found under NewRelicHeader sits at
    step finalizeRequest with priority low and, run on a request with a
    headers object, hands the next handler a heap with the header written;
    the entry found under NewRelicDeserialize sits at step deserialize and,
    run, has the outcome of the next handler called after the region
    attempt. *)
Theorem applyToStack_installs_both_middleware
    (shim : Shim) (config : Config) (st : Stack) :
  add_throws st (entries st) (NewRelicHeader shim) = None ->
  add_throws st (entries st ++ [NewRelicHeader shim])
    (NewRelicDeserialize shim config) = None ->
  find_entry "NewRelicHeader" (entries st) = None ->
  find_entry "NewRelicDeserialize" (entries st) = None ->
  let st' := snd (applyToStack shim config st) in
  (exists e,
     find_entry "NewRelicHeader" (entries st') = Some e /\
     step (snd e) = "finalizeRequest" /\
     priority (snd e) = Some "low" /\
     forall next context args request lh w,
       prop_of (w_heap w) args "request" = Return request ->
       prop_of (w_heap w) request "headers" = Return (VObj lh) ->
       apply_middleware (fst e) next context args w =
         (fst (next args (with_disable_dt (w_heap w) lh)),
          World (snd (next args (with_disable_dt (w_heap w) lh)))
            (w_trace w ++ [ENext args]))) /\
  (exists e,
     find_entry "NewRelicDeserialize" (entries st') = Some e /\
     step (snd e) = "deserialize" /\
     priority (snd e) = None /\
     forall next context args w,
       fst (apply_middleware (fst e) next context args w) =
       fst (next args (snd (config_region config (w_heap w))))).
Proof.
  intros H1 H2 Hfree1 Hfree2 st'.
  assert (Hentries : entries st' =
            entries st ++ [NewRelicHeader shim; NewRelicDeserialize shim config]).
  { subst st'. unfold applyToStack, bind, stack_add, ret.
    fold (NewRelicHeader shim). fold (NewRelicDeserialize shim config).
    rewrite H1. cbn [entries add_throws]. rewrite H2. simpl.
    by rewrite <- app_assoc. }
  rewrite Hentries. split.
  - exists (NewRelicHeader shim).
    rewrite (find_entry_app _ _ _ Hfree1).
    split; [done|]. split; [done|]. split; [done|].
    intros next context args request lh w Hrequest Hheaders. simpl.
    by eapply headerMiddleware_run.
  - exists (NewRelicDeserialize shim config).
    rewrite (find_entry_app _ _ _ Hfree2).
    split; [done|]. split; [done|]. split; [done|].
    intros next context args w. simpl.
    rewrite attrMiddleware_run. cbv zeta.
    by destruct (fst (next args (snd (config_region config (w_heap w))))).
Qed.

Lemma applyToStack_installs_both_middleware_witness :
  let config := Sample.config (Return (VStr "us-east-1")) in
  let st := {| entries := []; add_throws := fun _ _ => None |} in
  let st' := snd (applyToStack Sample.shim config st) in
  exists e,
    find_entry "NewRelicDeserialize" (entries st') = Some e /\
    step (snd e) = "deserialize" /\
    priority (snd e) = None /\
    forall next context args w,
      fst (apply_middleware (fst e) next context args w) =
      fst (next args (snd (config_region config (w_heap w)))).
Proof.
  intros config st st'.
  exact (proj2 (applyToStack_installs_both_middleware Sample.shim config st
                  eq_refl eq_refl eq_refl eq_refl)).
Defined.

(** ** instrumentSmithyClient *)

(** X14: when the resolved export is an object without a [Client] property
    (and the shim does not take undefined for a function), the entry point
    wraps nothing, logs 'Could not find Smithy Client, not instrumenting.'
    once and returns without throwing. *)
Theorem instrumentSmithyClient_without_client
    (shim : Loader) (name resolvedName : string) (l : loc)
    (exports : gmap string value) (lw : loader_world) :
  getExport shim resolvedName "client" = Return (VObj l) ->
  l_heap lw !! l = Some exports ->
  exports !! "Client" = None ->
  isFunction shim VUndefined = false ->
  instrumentSmithyClient shim name resolvedName lw =
    (Return VUndefined,
     LoaderWorld (l_heap lw) (l_trace lw ++ [LDebug NOT_INSTRUMENTING])).
Proof.
  intros Hexport Hl Hclient Hfun. unfold instrumentSmithyClient.
  rewrite (bind_Return _ _ lw (VObj l) lw) by (simpl; by rewrite Hexport).
  rewrite (bind_Return _ _ lw VUndefined lw);
    [|simpl; by rewrite Hl, Hclient].
  by rewrite Hfun.
Qed.

Lemma instrumentSmithyClient_without_client_witness :
  let shim := {| getExport := fun _ _ => Return (VObj 1);
                 isFunction := fun v => bool_decide (v = VObj 2);
                 wrapClass := fun _ _ _ _ => None |} in
  let lw := LoaderWorld {[ 1 := {[ "Command" := VObj 2 ]} ]} [] in
  instrumentSmithyClient shim "@aws-sdk/smithy-client" "smithy-client" lw =
  (Return VUndefined,
   LoaderWorld (l_heap lw) (l_trace lw ++ [LDebug NOT_INSTRUMENTING])).
Proof.
  intros shim lw.
  apply (instrumentSmithyClient_without_client shim "@aws-sdk/smithy-client"
           "smithy-client" 1 {[ "Command" := VObj 2 ]} lw);
    vm_compute; reflexivity.
Defined.

